(** * Shelly model viewer: asset loading and camera framing

    A shallow embedding of [src/model-manager.js] (class [ModelManager]:
    [load] and [frameObject]) and of the application scripts [src/index.js]
    and [src/unnamed/part_000] ([setVariant] and their own [frameObject]).

    Conventions of the embedding.
    - A JavaScript [Number] is read as a real number: the arithmetic of the
      source is the exact arithmetic of [R]; rounding, overflow and [NaN] of
      IEEE doubles are outside the model.
    - Objects mutated in place are passed through explicitly: a function that
      writes to the camera returns the camera after the writes.
    - three.js itself is not part of the repository.  The small vector
      methods the source calls ([copy], [add], [multiplyScalar], [length],
      [normalize]) are written out; everything else of the library is an
      operation of the class [Three] below, with the part of its contract the
      source relies on. *)

From Stdlib Require Import Reals Lra List Bool.
From stdpp Require Import base strings gmap.

Local Open Scope R_scope.

(** ** Vector3 *)

Record Vector3 := vec3 { vx : R; vy : R; vz : R }.

Module Vector3Methods.

(** [v.copy(w)]: the receiver takes the components of [w]. *)
Definition copy (_ w : Vector3) : Vector3 := vec3 (vx w) (vy w) (vz w).

Definition add (v w : Vector3) : Vector3 :=
  vec3 (vx v + vx w) (vy v + vy w) (vz v + vz w).

Definition multiplyScalar (v : Vector3) (s : R) : Vector3 :=
  vec3 (vx v * s) (vy v * s) (vz v * s).

Definition divideScalar (v : Vector3) (s : R) : Vector3 :=
  multiplyScalar v (1 / s).

Definition length (v : Vector3) : R :=
  sqrt (vx v * vx v + vy v * vy v + vz v * vz v).

(** [a || b] on numbers: [0] is the falsy one. *)
Definition or_number (a b : R) : R := if Req_dec_T a 0 then b else a.

(** [normalize() { return this.divideScalar(this.length() || 1) }] *)
Definition normalize (v : Vector3) : Vector3 :=
  divideScalar v (or_number (length v) 1).

End Vector3Methods.

(** [Math.max(a, b, c)] *)
Definition Math_max3 (a b c : R) : R := Rmax (Rmax a b) c.

(** [camera.fov * Math.PI / 180] *)
Definition deg2rad (fov : R) : R := fov * PI / 180.

(** The expression bound to [dist] in [ModelManager.frameObject]:
    [(maxDim / (2 * Math.tan(fov / 2))) * padding], with [fov] already in
    radians. *)
Definition frameDist (maxDim fov padding : R) : R :=
  (maxDim / (2 * tan (fov / 2))) * padding.


(** ** Scene graph *)

Inductive ColorSpace := NoColorSpace | SRGBColorSpace | LinearSRGBColorSpace.

(** What [material.map] holds when it is not nullish. *)
Record Texture := { isTexture : bool; colorSpace : ColorSpace }.

(** The value of an [envMap] slot: [null] or an environment texture. *)
Inductive EnvValue := env_null | env_texture (handle : nat).

(** [mat_envMap = None] is a material without an [envMap] property
    (["envMap" in material] is false). *)
Record Material := { mat_map : option Texture; mat_envMap : option EnvValue }.

(** The fields of an [Object3D] the source reads or writes; [material] is
    [None] when the property is nullish.  GLTFLoader gives a mesh one
    material, never an array. *)
Record NodeData := {
  id : nat;
  isMesh : bool;
  castShadow : bool;
  receiveShadow : bool;
  material : option Material;
  scale : Vector3
}.

#[local] Set Warnings "-register-all".
Inductive Object3D := Node (data : NodeData) (children : list Object3D).

Definition data_of (o : Object3D) : NodeData := let 'Node d _ := o in d.

(** [traverse(callback)]: [callback(this)], then each child in turn.  Both
    callbacks of the source write fields of the visited object (and of its
    material) only, so a callback is a function on [NodeData].  They write
    constants, under tests they do not change, so a material or texture that
    two objects share ends up as it does here, where each object has its
    own. *)
Fixpoint traverse (callback : NodeData -> NodeData) (o : Object3D) : Object3D :=
  match o with
  | Node d cs => Node (callback d) (List.map (traverse callback) cs)
  end.

(** The objects [traverse] visits, in visiting order. *)
Fixpoint nodes (o : Object3D) : list NodeData :=
  match o with
  | Node d cs => d :: List.flat_map nodes cs
  end.

Record PerspectiveCamera := {
  position : Vector3;
  fov : R;
  aspect : R;
  near : R;
  far : R;
  projectionMatrix : list R
}.

(** The controller as far as [frameObject] and the scripts reach it: the
    target, the two flags, and the rotation about the vertical axis through
    the target that [update] still has to apply ([autoRotate] feeds it on
    every call, damping carries a part of it over to the next call).  A drag,
    a pan or a dolly in progress is outside the model. *)
Record OrbitControls := {
  target : Vector3;
  enableDamping : bool;
  autoRotate : bool;
  sphericalDelta_theta : R
}.

(** A controller at rest: no rotation is pending and none is fed in. *)
Definition at_rest (k : OrbitControls) : Prop :=
  autoRotate k = false /\ sphericalDelta_theta k = 0.

Definition set_position (c : PerspectiveCamera) (v : Vector3) :=
  {| position := v; fov := fov c; aspect := aspect c; near := near c;
     far := far c; projectionMatrix := projectionMatrix c |}.
Definition set_near (c : PerspectiveCamera) (x : R) :=
  {| position := position c; fov := fov c; aspect := aspect c; near := x;
     far := far c; projectionMatrix := projectionMatrix c |}.
Definition set_far (c : PerspectiveCamera) (x : R) :=
  {| position := position c; fov := fov c; aspect := aspect c; near := near c;
     far := x; projectionMatrix := projectionMatrix c |}.
Definition set_target (k : OrbitControls) (v : Vector3) :=
  {| target := v; enableDamping := enableDamping k; autoRotate := autoRotate k;
     sphericalDelta_theta := sphericalDelta_theta k |}.

(** [a.distanceTo(b)] *)
Definition distance_between (a b : Vector3) : R :=
  sqrt ((vx a - vx b) * (vx a - vx b) + (vy a - vy b) * (vy a - vy b) +
        (vz a - vz b) * (vz a - vz b)).

(** The pose [frameObject] leaves behind: what it writes to the camera and
    to the controller. *)
Record CameraPose := {
  pose_position : Vector3;
  pose_near : R;
  pose_far : R;
  pose_target : Vector3
}.

Definition pose_of (s : PerspectiveCamera * OrbitControls) : CameraPose :=
  {| pose_position := position (fst s); pose_near := near (fst s);
     pose_far := far (fst s); pose_target := target (snd s) |}.

(** ** The three.js operations the source calls

    [Box3] with [setFromObject], [getSize], [getCenter] and [min];
    [PerspectiveCamera.updateProjectionMatrix]; [OrbitControls.update];
    [PMREMGenerator.fromEquirectangular(tex).texture].  The laws are what
    holds of them on the states of the model.  [updateProjectionMatrix]
    rewrites the projection matrix only.  [update] never writes the field of
    view or the clip planes; it turns the camera about the target, so it
    keeps the target and the distance between the two; and it leaves the
    camera where it is, and the controller at rest, when the controller is
    at rest.  With [autoRotate] on, or a rotation pending, it moves the
    camera.  The generator makes a new target for every texture it is given,
    and RGBELoader a new texture on every load: two handles are the same
    only when the textures are. *)
Class Three := {
  Box3 : Type;
  Box3_setFromObject : Object3D -> Box3;
  Box3_getSize : Box3 -> Vector3;
  Box3_getCenter : Box3 -> Vector3;
  Box3_min : Box3 -> Vector3;
  updateProjectionMatrix : PerspectiveCamera -> PerspectiveCamera;
  OrbitControls_update :
    PerspectiveCamera -> OrbitControls -> PerspectiveCamera * OrbitControls;
  PMREM_fromEquirectangular_texture : nat -> nat;
  updateProjectionMatrix_writes :
    forall c,
      position (updateProjectionMatrix c) = position c /\
      fov (updateProjectionMatrix c) = fov c /\
      near (updateProjectionMatrix c) = near c /\
      far (updateProjectionMatrix c) = far c;
  OrbitControls_update_writes :
    forall c k,
      fov (fst (OrbitControls_update c k)) = fov c /\
      near (fst (OrbitControls_update c k)) = near c /\
      far (fst (OrbitControls_update c k)) = far c /\
      target (snd (OrbitControls_update c k)) = target k /\
      distance_between (position (fst (OrbitControls_update c k))) (target k) =
        distance_between (position c) (target k);
  OrbitControls_update_at_rest :
    forall c k,
      at_rest k ->
      position (fst (OrbitControls_update c k)) = position c /\
      at_rest (snd (OrbitControls_update c k));
  PMREM_fromEquirectangular_texture_fresh :
    forall tex tex',
      PMREM_fromEquirectangular_texture tex = PMREM_fromEquirectangular_texture tex' ->
      tex = tex'
}.

(** ** Promises, abort signals and the loaders' callbacks *)

(** What a rejected promise of the source carries: the [DOMException] made by
    the abort listener, the value GLTFLoader or RGBELoader passed to its
    [onError] callback, or the [TypeError] of a method call on [undefined]. *)
Inductive Error :=
| AbortError
| GLTFLoaderError (e : string)
| RGBELoaderError (e : string)
| TypeError.

Inductive Settled (A : Type) :=
| Pending
| Fulfilled (a : A)
| Rejected (e : Error).
Arguments Pending {A}.
Arguments Fulfilled {A} a.
Arguments Rejected {A} e.

(** [resolve] and [reject] of a promise: only the first call settles it. *)
Definition resolve {A} (p : Settled A) (a : A) : Settled A :=
  match p with Pending => Fulfilled a | _ => p end.
Definition reject {A} (p : Settled A) (e : Error) : Settled A :=
  match p with Pending => Rejected e | _ => p end.

(** The listener [load] registers:
    [() => reject(new DOMException("Aborted", "AbortError"))]. *)
Inductive AbortListener := reject_Aborted.

Record AbortSignal := { aborted : bool; listeners : list AbortListener }.

Definition new_AbortController_signal : AbortSignal :=
  {| aborted := false; listeners := [] |}.

Definition addEventListener_abort (s : AbortSignal) (l : AbortListener) : AbortSignal :=
  {| aborted := aborted s; listeners := listeners s ++ [l] |}.

(** [AbortController.abort()]: nothing on a signal that is aborted already;
    otherwise the flag is set and the ["abort"] event goes to the listeners
    registered so far.  The second component is the listeners to run. *)
Definition signal_abort (s : AbortSignal) : AbortSignal * list AbortListener :=
  if aborted s then (s, [])
  else ({| aborted := true; listeners := listeners s |}, listeners s).

Definition AnimationClip := string.

(** The object GLTFLoader hands to [onLoad]; a field is [None] when the
    property is [undefined]. *)
Record GLTF := {
  gltf_scene : option Object3D;
  gltf_scenes : option (list Object3D);
  gltf_animations : option (list AnimationClip)
}.

(** What happens while the first promise of [load] is pending, in order:
    GLTFLoader calls [onLoad] or [onError], or the caller aborts the
    controller of the [signal] it passed. *)
Inductive LoadEvent :=
| onLoad (asset : GLTF)
| onError (e : string)
| abort.

(** What RGBELoader does with the environment map: calls [onLoad] with the
    texture, calls [onError], or neither. *)
Inductive RGBEOutcome :=
| rgbe_loaded (tex : nat)
| rgbe_failed (e : string)
| rgbe_silent.

(** Truthiness of a string option: [null], [undefined] and [""] are falsy. *)
Definition truthy_string (s : option string) : bool :=
  match s with
  | None => false
  | Some s => negb (String.eqb s "")
  end.

Module ModelManager.
Section WithThree.
Context {three : Three}.

Record Asset := {
  root : Object3D;
  bbox : Box3;
  size : Vector3;
  center : Vector3;
  animations : list AnimationClip
}.

(** The state of the first [await] of [load]: the promise, and the signal
    the listener was put on. *)
Record Executor := {
  promise : Settled GLTF;
  abortSignal : AbortSignal
}.

Definition run_listener (p : Settled GLTF) (l : AbortListener) : Settled GLTF :=
  match l with reject_Aborted => reject p AbortError end.

(** One event.  [abort] reaches [abortSignal] only when it is the caller's
    signal: nobody else holds the controller [load] makes for itself. *)
Definition deliver (from_caller : bool) (x : Executor) (ev : LoadEvent) : Executor :=
  match ev with
  | onLoad asset =>
      {| promise := resolve (promise x) asset; abortSignal := abortSignal x |}
  | onError e =>
      {| promise := reject (promise x) (GLTFLoaderError e);
         abortSignal := abortSignal x |}
  | abort =>
      if from_caller then
        let '(s, ls) := signal_abort (abortSignal x) in
        {| promise := fold_left run_listener ls (promise x); abortSignal := s |}
      else x
  end.

(** Lines 28 to 39: the controller, the signal, the executor (one call of
    [gltf.load], then the listener), and the events that follow. *)
Definition await_gltf (signal : option AbortSignal) (events : list LoadEvent)
  : Settled GLTF :=
  let controller :=
    match signal with Some _ => None | None => Some new_AbortController_signal end in
  let abortSignal0 :=
    match signal with Some s => Some s | None => controller end in
  let x0 :=
    match abortSignal0 with
    | Some s => {| promise := Pending;
                   abortSignal := addEventListener_abort s reject_Aborted |}
    | None => {| promise := Pending; abortSignal := new_AbortController_signal |}
    end in
  let from_caller := match signal with Some _ => true | None => false end in
  promise (fold_left (deliver from_caller) events x0).

(** [scene.scene || scene.scenes?.[0]] *)
Definition choose_root (scene : GLTF) : option Object3D :=
  match gltf_scene scene with
  | Some r => Some r
  | None =>
      match gltf_scenes scene with
      | Some l => List.hd_error l
      | None => None
      end
  end.

(** [if (o.material?.map?.isTexture) o.material.map.colorSpace = SRGBColorSpace] *)
Definition force_sRGB (m : option Material) : option Material :=
  match m with
  | Some {| mat_map := Some t; mat_envMap := e |} =>
      if isTexture t
      then Some {| mat_map := Some {| isTexture := isTexture t;
                                      colorSpace := SRGBColorSpace |};
                   mat_envMap := e |}
      else m
  | _ => m
  end.

(** The callback of the first traversal (lines 43 to 50). *)
Definition mark_mesh (o : NodeData) : NodeData :=
  if isMesh o then
    {| id := id o; isMesh := isMesh o; castShadow := true; receiveShadow := true;
       material := force_sRGB (material o); scale := scale o |}
  else o.

(** The callback of the second traversal (line 59):
    [if (o.isMesh && o.material && "envMap" in o.material) o.material.envMap = env]. *)
Definition apply_env (env : nat) (o : NodeData) : NodeData :=
  if isMesh o then
    match material o with
    | Some {| mat_map := t; mat_envMap := Some _ |} =>
        {| id := id o; isMesh := isMesh o; castShadow := castShadow o;
           receiveShadow := receiveShadow o;
           material := Some {| mat_map := t; mat_envMap := Some (env_texture env) |};
           scale := scale o |}
    | _ => o
    end
  else o.

(** One run of [load]: how the returned promise settles, the root object
    as the run left it (it is written in place, whatever the outcome), and
    the HDR textures disposed of.  Line 55 awaits the import of the
    RGBELoader module inside the executor of the second promise; the run
    reads it as written for an async executor: the module is there, then
    its [load] is called once. *)
Record Run := {
  result : Settled Asset;
  root_after : option Object3D;
  disposed : list nat
}.

Definition make_asset (scene : GLTF) (r : Object3D) : Asset :=
  let b := Box3_setFromObject r in
  {| root := r; bbox := b; size := Box3_getSize b; center := Box3_getCenter b;
     animations := match gltf_animations scene with Some a => a | None => [] end |}.

Definition load (url : string) (signal : option AbortSignal)
    (envMapHDR : option string) (events : list LoadEvent) (rgbe : RGBEOutcome)
  : Run :=
  match await_gltf signal events with
  | Pending => {| result := Pending; root_after := None; disposed := [] |}
  | Rejected e => {| result := Rejected e; root_after := None; disposed := [] |}
  | Fulfilled scene =>
      match choose_root scene with
      | None => {| result := Rejected TypeError; root_after := None; disposed := [] |}
      | Some root0 =>
          let root1 := traverse mark_mesh root0 in
          if truthy_string envMapHDR then
            match rgbe with
            | rgbe_silent =>
                {| result := Pending; root_after := Some root1; disposed := [] |}
            | rgbe_failed e =>
                {| result := Rejected (RGBELoaderError e);
                   root_after := Some root1; disposed := [] |}
            | rgbe_loaded tex =>
                let env := PMREM_fromEquirectangular_texture tex in
                let root2 := traverse (apply_env env) root1 in
                {| result := Fulfilled (make_asset scene root2);
                   root_after := Some root2; disposed := [tex] |}
            end
          else
            {| result := Fulfilled (make_asset scene root1);
               root_after := Some root1; disposed := [] |}
      end
  end.

(** The [dist] of [frameObject] (lines 71 to 76). *)
Definition frameObject_dist (object : Object3D) (camera : PerspectiveCamera)
    (padding : R) : R :=
  let box := Box3_setFromObject object in
  let size := Box3_getSize box in
  let maxDim := Math_max3 (vx size) (vy size) (vz size) in
  let fov := deg2rad (fov camera) in
  frameDist maxDim fov padding.

Definition frameObject (object : Object3D) (camera : PerspectiveCamera)
    (controls : OrbitControls) (padding : R)
  : PerspectiveCamera * OrbitControls :=
  let box := Box3_setFromObject object in
  let center := Box3_getCenter box in
  let dist := frameObject_dist object camera padding in
  let dir := Vector3Methods.normalize (vec3 1 0.6 1) in
  let camera :=
    set_position camera
      (Vector3Methods.add (Vector3Methods.copy (position camera) center)
                          (Vector3Methods.multiplyScalar dir dist)) in
  let camera := set_near camera (dist / 100) in
  let camera := set_far camera (dist * 100) in
  let camera := updateProjectionMatrix camera in
  let controls := set_target controls (Vector3Methods.copy (target controls) center) in
  OrbitControls_update camera controls.

(** [padding = 1.25] *)
Definition default_padding : R := 1.25.

(** A call of [frameObject(object, camera, controls, padding = 1.25)], with
    the fourth argument given or left out. *)
Definition frameObject_js (object : Object3D) (camera : PerspectiveCamera)
    (controls : OrbitControls) (padding : option R)
  : PerspectiveCamera * OrbitControls :=
  frameObject object camera controls
    (match padding with Some p => p | None => 1.25 end).

End WithThree.
End ModelManager.

(** ** The viewer scripts: [src/index.js] and [src/unnamed/part_000] *)

Module Viewer.

(** An entry of the [VARIANTS] literal. *)
Record Variant := { label : string; url : string; cfg_scale : R }.

(** The names every plain object inherits from [Object.prototype]. *)
Definition Object_prototype : list string :=
  [ "constructor"; "__defineGetter__"; "__defineSetter__"; "hasOwnProperty";
    "__lookupGetter__"; "__lookupSetter__"; "isPrototypeOf";
    "propertyIsEnumerable"; "toString"; "valueOf"; "__proto__";
    "toLocaleString" ]%string.

(** The value of [VARIANTS[name]] when it is not [undefined]: an entry of
    the literal, or what [Object.prototype] has under that name (a function,
    or the prototype itself for [__proto__]; truthy either way). *)
Inductive Cfg :=
| cfg_own (v : Variant)
| cfg_inherited (name : string).

(** Property lookup on an object literal: own properties first, then the
    prototype. *)
Definition get_property (obj : gmap string Variant) (name : string) : option Cfg :=
  match obj !! name with
  | Some v => Some (cfg_own v)
  | None =>
      if bool_decide (name ∈ Object_prototype) then Some (cfg_inherited name)
      else None
  end.

(** [cfg.url], [cfg.scale], [cfg.label]; [None] is [undefined]. *)
Definition cfg_url (c : Cfg) : option string :=
  match c with cfg_own v => Some (url v) | cfg_inherited _ => None end.
Definition cfg_scale_of (c : Cfg) : option R :=
  match c with cfg_own v => Some (cfg_scale v) | cfg_inherited _ => None end.
Definition cfg_label (c : Cfg) : string :=
  match c with cfg_own v => label v | cfg_inherited _ => "undefined" end.

(** [cfg.scale && cfg.scale !== 1] *)
Definition needs_scaling (c : Cfg) : option R :=
  match cfg_scale_of c with
  | Some k => if Req_dec_T k 0 then None
              else if Req_dec_T k 1 then None else Some k
  | None => None
  end.

(** [model.scale.setScalar(k)] *)
Definition scale_setScalar (o : Object3D) (k : R) : Object3D :=
  match o with
  | Node d cs =>
      Node {| id := id d; isMesh := isMesh d; castShadow := castShadow d;
              receiveShadow := receiveShadow d; material := material d;
              scale := vec3 k k k |} cs
  end.

(** What [loader.load(cfg.url, ...)] does: calls [onLoad] with a glTF whose
    [scene] is the given object, calls [onError], or neither. *)
Inductive LoaderOutcome :=
| loader_loaded (gltf_scene : Object3D)
| loader_failed (e : string)
| loader_silent.

(** The module-level state of the script. *)
Record App := {
  scene_children : list Object3D;
  currentModel : option Object3D;
  cache : gmap string Object3D;
  loader_calls : list (option string);
  camera : PerspectiveCamera;
  controls : OrbitControls;
  grid_position_y : R;
  statusEl_textContent : string
}.

Definition same_object (a b : Object3D) : bool :=
  Nat.eqb (id (data_of a)) (id (data_of b)).

(** [scene.remove(o)]: the first occurrence of [o] leaves the children. *)
Fixpoint scene_remove (cs : list Object3D) (o : Object3D) : list Object3D :=
  match cs with
  | [] => []
  | c :: cs' => if same_object c o then cs' else c :: scene_remove cs' o
  end.

(** [scene.add(o)]: [o] leaves its parent (the scene, if it has one) and is
    pushed at the end. *)
Definition scene_add (cs : list Object3D) (o : Object3D) : list Object3D :=
  scene_remove cs o ++ [o].

Section WithThree.
Context {three : Three}.

(** [frameObject(object, cam, controls)] of the scripts. *)
Definition frameObject (object : Object3D) (cam : PerspectiveCamera)
    (controls : OrbitControls) : PerspectiveCamera * OrbitControls :=
  let box := Box3_setFromObject object in
  let size := Vector3Methods.length (Box3_getSize box) in
  let center := Box3_getCenter box in
  let fitDist := size / (2 * tan ((fov cam * PI) / 360)) in
  let dir := Vector3Methods.normalize (vec3 1 0.6 1) in
  let cam :=
    set_position cam
      (Vector3Methods.add (Vector3Methods.copy (position cam) center)
                          (Vector3Methods.multiplyScalar dir (fitDist * 1.3))) in
  let cam := set_near cam (size / 100) in
  let cam := set_far cam (size * 10) in
  let cam := updateProjectionMatrix cam in
  let controls := set_target controls (Vector3Methods.copy (target controls) center) in
  OrbitControls_update cam controls.

Definition with_scene (a : App) (cs : list Object3D) (cur : option Object3D) : App :=
  {| scene_children := cs; currentModel := cur; cache := cache a;
     loader_calls := loader_calls a; camera := camera a; controls := controls a;
     grid_position_y := grid_position_y a;
     statusEl_textContent := statusEl_textContent a |}.

Definition with_cache (a : App) (m : gmap string Object3D) : App :=
  {| scene_children := scene_children a; currentModel := currentModel a; cache := m;
     loader_calls := loader_calls a; camera := camera a; controls := controls a;
     grid_position_y := grid_position_y a;
     statusEl_textContent := statusEl_textContent a |}.

Definition with_loader_call (a : App) (u : option string) : App :=
  {| scene_children := scene_children a; currentModel := currentModel a;
     cache := cache a; loader_calls := loader_calls a ++ [u];
     camera := camera a; controls := controls a;
     grid_position_y := grid_position_y a;
     statusEl_textContent := statusEl_textContent a |}.

Definition with_view (a : App) (v : PerspectiveCamera * OrbitControls) : App :=
  {| scene_children := scene_children a; currentModel := currentModel a;
     cache := cache a; loader_calls := loader_calls a;
     camera := fst v; controls := snd v;
     grid_position_y := grid_position_y a;
     statusEl_textContent := statusEl_textContent a |}.

(** [placeGridAtModelFloor(object3D)] *)
Definition placeGridAtModelFloor (a : App) (object3D : Object3D) : App :=
  let box := Box3_setFromObject object3D in
  {| scene_children := scene_children a; currentModel := currentModel a;
     cache := cache a; loader_calls := loader_calls a;
     camera := camera a; controls := controls a;
     grid_position_y := vy (Box3_min box);
     statusEl_textContent := statusEl_textContent a |}.

(** [setStatus(text)] *)
Definition setStatus (a : App) (text : string) : App :=
  {| scene_children := scene_children a; currentModel := currentModel a;
     cache := cache a; loader_calls := loader_calls a;
     camera := camera a; controls := controls a;
     grid_position_y := grid_position_y a;
     statusEl_textContent := text |}.

(** Lines 88 to 90 of [index.js] (94 to 98 of [part_000]): the model
    becomes the current one, joins the scene and is framed; [finish] is what
    [part_000] does after that. *)
Definition show (finish : Cfg -> Object3D -> App -> App) (cfg : Cfg)
    (model : Object3D) (a : App) : App :=
  let a := with_scene a (scene_add (scene_children a) model) (Some model) in
  let a := with_view a (frameObject model (camera a) (controls a)) in
  finish cfg model a.

(** Where a call of [setVariant] stands when it gives the control back:
    it has returned, or it is suspended at the [await] on the loader, to
    resume with the [cfg] it looked up. *)
Inductive Suspension :=
| returned
| awaiting (cfg : Cfg).

(** [setVariant(name)] up to the point where it gives the control back:
    through the guard, the removal of the current model and the cache, to
    the end on a hit, to the call of [loader.load] on a miss. *)
Definition setVariant_call (VARIANTS : gmap string Variant)
    (finish : Cfg -> Object3D -> App -> App) (name : string) (a : App)
  : App * Suspension :=
  match get_property VARIANTS name with
  | None => (a, returned)
  | Some cfg =>
      let a :=
        match currentModel a with
        | Some cur => with_scene a (scene_remove (scene_children a) cur) None
        | None => a
        end in
      match cache a !! name with
      | Some model => (show finish cfg model a, returned)
      | None => (with_loader_call a (cfg_url cfg), awaiting cfg)
      end
  end.

(** A suspended call resumed: the loader has called [onLoad] with a glTF
    whose [scene] is [model], and the rest of [setVariant] (the rescaling,
    [cache.set], and the lines of [show]) runs on the state [b] the script
    is in at that moment, whatever has happened to it since the call. *)
Definition setVariant_resume (finish : Cfg -> Object3D -> App -> App)
    (cfg : Cfg) (name : string) (model : Object3D) (b : App) : App :=
  let model :=
    match needs_scaling cfg with
    | Some k => scale_setScalar model k
    | None => model
    end in
  show finish cfg model (with_cache b (<[name := model]> (cache b))).

(** A call together with the loader's answer, when nothing else touches the
    state between the two: the state left behind and how the returned
    promise settles. *)
Definition setVariant_with (VARIANTS : gmap string Variant)
    (finish : Cfg -> Object3D -> App -> App)
    (name : string) (response : LoaderOutcome) (a : App) : App * Settled unit :=
  match setVariant_call VARIANTS finish name a with
  | (a', returned) => (a', Fulfilled tt)
  | (a', awaiting cfg) =>
      match response with
      | loader_silent => (a', Pending)
      | loader_failed e => (a', Rejected (GLTFLoaderError e))
      | loader_loaded model =>
          (setVariant_resume finish cfg name model a', Fulfilled tt)
      end
  end.

End WithThree.
End Viewer.

Module Index.
Section WithThree.
Context {three : Three}.

Definition VARIANTS : gmap string Viewer.Variant :=
  list_to_map
    [ ("plus1pm", Viewer.Build_Variant "Shelly Plus 1PM" "./assets/shelly2.glb" 1);
      ("plus2pm", Viewer.Build_Variant "Shelly Plus 2PM" "./assets/shelly.glb" 1);
      ("plusi4", Viewer.Build_Variant "Shelly Plus i4" "./assets/shelly1.glb" 1)
    ]%string.

Definition finish (_ : Viewer.Cfg) (_ : Object3D) (a : Viewer.App) : Viewer.App := a.

Definition setVariant_call (name : string) (a : Viewer.App)
  : Viewer.App * Viewer.Suspension :=
  Viewer.setVariant_call VARIANTS finish name a.

Definition setVariant_resume (cfg : Viewer.Cfg) (name : string) (model : Object3D)
    (b : Viewer.App) : Viewer.App :=
  Viewer.setVariant_resume finish cfg name model b.

Definition setVariant (name : string) (response : Viewer.LoaderOutcome)
    (a : Viewer.App) : Viewer.App * Settled unit :=
  Viewer.setVariant_with VARIANTS finish name response a.

End WithThree.
End Index.

Module Part000.
Section WithThree.
Context {three : Three}.

Definition VARIANTS : gmap string Viewer.Variant :=
  list_to_map
    [ ("plus1pm", Viewer.Build_Variant "Shelly Plus 1PM" "./assets/shelly2.glb" 1);
      ("plus2pm", Viewer.Build_Variant "Shelly Plus 2PM" "./assets/shelly.glb" 1);
      ("plusi4", Viewer.Build_Variant "Shelly Plus i4" "./assets/shelly1.glb" 1);
      ("duorgbw", Viewer.Build_Variant "Shelly Duo RGBW" "./assets/duo_rgbw.glb" 1);
      ("pro1", Viewer.Build_Variant "Shelly Pro 1" "./assets/pro1.glb" 1);
      ("pro1pm", Viewer.Build_Variant "Shelly Pro 1PM" "./assets/pro1pm.glb" 1);
      ("pro2pm", Viewer.Build_Variant "Shelly Pro 2PM" "./assets/pro2pm.glb" 1);
      ("pro1dimmer",
        Viewer.Build_Variant "Shelly Pro Dimmer1PM" "./assets/pro1dimmer.glb" 1);
      ("pro3em", Viewer.Build_Variant "Shelly Pro 3EM" "./assets/pro3em.glb" 1)
    ]%string.

(** Lines 97 and 98. *)
Definition finish (cfg : Viewer.Cfg) (model : Object3D) (a : Viewer.App)
  : Viewer.App :=
  Viewer.setStatus (Viewer.placeGridAtModelFloor a model)
                   ("Loaded: " ++ Viewer.cfg_label cfg)%string.

Definition setVariant_call (name : string) (a : Viewer.App)
  : Viewer.App * Viewer.Suspension :=
  Viewer.setVariant_call VARIANTS finish name a.

Definition setVariant_resume (cfg : Viewer.Cfg) (name : string) (model : Object3D)
    (b : Viewer.App) : Viewer.App :=
  Viewer.setVariant_resume finish cfg name model b.

Definition setVariant (name : string) (response : Viewer.LoaderOutcome)
    (a : Viewer.App) : Viewer.App * Settled unit :=
  Viewer.setVariant_with VARIANTS finish name response a.

End WithThree.
End Part000.

(** ** The event handlers of the scripts *)

Module Handlers.
Section WithThree.
Context {three : Three}.

(** The handler of the recenter button, lines 114 to 116 of [index.js] and
    182 to 187 of [part_000]: [if (currentModel) { frameObject(currentModel,
    camera, controls); ... }]; [finish] is what [part_000] adds inside the
    test. *)
Definition recenter_with (finish : Viewer.App -> Viewer.App) (a : Viewer.App)
  : Viewer.App :=
  match Viewer.currentModel a with
  | Some model =>
      finish (Viewer.with_view a
                (Viewer.frameObject model (Viewer.camera a) (Viewer.controls a)))
  | None => a
  end.

End WithThree.
End Handlers.

Module IndexPage.
Section WithThree.
Context {three : Three}.


End WithThree.
End IndexPage.

(** The page of [part_000]: the script's state, with what its buttons and the
    resize listener read and write. *)
Module Part000Page.

(** [String(b)] for a boolean. *)
Definition String_of_bool (b : bool) : string := if b then "true" else "false".

Record Page := {
  app : Viewer.App;
  bgOn : bool;
  gradientBackground_visible : bool;
  scene_background : N;
  renderer_clearColor : N;
  grid_visible : bool;
  btnAuto_aria_pressed : string;
  btnBg_aria_pressed : string;
  btnGrid_aria_pressed : string;
  renderer_size : R * R
}.

Inductive PageEvent :=
| click_btnAuto
| click_btnBg
| click_btnGrid
| click_recenter
| change_variant (value : string) (response : Viewer.LoaderOutcome)
| window_resize (w h : R).

Definition with_app (p : Page) (a : Viewer.App) : Page :=
  {| app := a; bgOn := bgOn p;
     gradientBackground_visible := gradientBackground_visible p;
     scene_background := scene_background p;
     renderer_clearColor := renderer_clearColor p;
     grid_visible := grid_visible p;
     btnAuto_aria_pressed := btnAuto_aria_pressed p;
     btnBg_aria_pressed := btnBg_aria_pressed p;
     btnGrid_aria_pressed := btnGrid_aria_pressed p;
     renderer_size := renderer_size p |}.

Definition set_autoRotate (k : OrbitControls) (b : bool) : OrbitControls :=
  {| target := target k; enableDamping := enableDamping k; autoRotate := b;
     sphericalDelta_theta := sphericalDelta_theta k |}.

Definition set_aspect (c : PerspectiveCamera) (x : R) : PerspectiveCamera :=
  {| position := position c; fov := fov c; aspect := x; near := near c;
     far := far c; projectionMatrix := projectionMatrix c |}.

Section WithThree.
Context {three : Three}.

(** Lines 147 to 151. *)
Definition on_btnAuto (p : Page) : Page :=
  let a := app p in
  let b := negb (autoRotate (Viewer.controls a)) in
  let a := Viewer.with_view a
             (Viewer.camera a, set_autoRotate (Viewer.controls a) b) in
  let a := Viewer.setStatus a
             ("Auto-rotate: " ++ (if b then "ON" else "OFF"))%string in
  {| app := a; bgOn := bgOn p;
     gradientBackground_visible := gradientBackground_visible p;
     scene_background := scene_background p;
     renderer_clearColor := renderer_clearColor p;
     grid_visible := grid_visible p;
     btnAuto_aria_pressed := String_of_bool b;
     btnBg_aria_pressed := btnBg_aria_pressed p;
     btnGrid_aria_pressed := btnGrid_aria_pressed p;
     renderer_size := renderer_size p |}.

(** Lines 157 to 169. *)
Definition on_btnBg (p : Page) : Page :=
  let b := negb (bgOn p) in
  let background := if b then 0x1a1a1a%N else 0x111111%N in
  {| app := Viewer.setStatus (app p)
              ("Background: " ++ (if b then "ON" else "OFF"))%string;
     bgOn := b;
     gradientBackground_visible := b;
     scene_background := background;
     renderer_clearColor := background;
     grid_visible := grid_visible p;
     btnAuto_aria_pressed := btnAuto_aria_pressed p;
     btnBg_aria_pressed := String_of_bool b;
     btnGrid_aria_pressed := btnGrid_aria_pressed p;
     renderer_size := renderer_size p |}.

(** Lines 171 to 175. *)
Definition on_btnGrid (p : Page) : Page :=
  let b := negb (grid_visible p) in
  {| app := Viewer.setStatus (app p)
              ("Grid: " ++ (if b then "ON" else "OFF"))%string;
     bgOn := bgOn p;
     gradientBackground_visible := gradientBackground_visible p;
     scene_background := scene_background p;
     renderer_clearColor := renderer_clearColor p;
     grid_visible := b;
     btnAuto_aria_pressed := btnAuto_aria_pressed p;
     btnBg_aria_pressed := btnBg_aria_pressed p;
     btnGrid_aria_pressed := String_of_bool b;
     renderer_size := renderer_size p |}.

(** Lines 182 to 187. *)
Definition on_recenter (p : Page) : Page :=
  with_app p
    (Handlers.recenter_with (fun a => Viewer.setStatus a "Re-centered") (app p)).

(** Line 181: [setVariant(selectEl.value)]; the promise is dropped. *)
Definition on_change (value : string) (response : Viewer.LoaderOutcome) (p : Page)
  : Page :=
  with_app p (fst (Part000.setVariant value response (app p))).

(** Lines 200 to 205, with [w] and [h] the inner size of the window. *)
Definition on_resize (w h : R) (p : Page) : Page :=
  let a := app p in
  let cam := updateProjectionMatrix (set_aspect (Viewer.camera a) (w / h)) in
  {| app := Viewer.with_view a (cam, Viewer.controls a);
     bgOn := bgOn p;
     gradientBackground_visible := gradientBackground_visible p;
     scene_background := scene_background p;
     renderer_clearColor := renderer_clearColor p;
     grid_visible := grid_visible p;
     btnAuto_aria_pressed := btnAuto_aria_pressed p;
     btnBg_aria_pressed := btnBg_aria_pressed p;
     btnGrid_aria_pressed := btnGrid_aria_pressed p;
     renderer_size := (w, h) |}.

Definition handle (p : Page) (ev : PageEvent) : Page :=
  match ev with
  | click_btnAuto => on_btnAuto p
  | click_btnBg => on_btnBg p
  | click_btnGrid => on_btnGrid p
  | click_recenter => on_recenter p
  | change_variant value response => on_change value response p
  | window_resize w h => on_resize w h p
  end.

(** The page after a run of events. *)
Definition run (p : Page) (events : list PageEvent) : Page :=
  fold_left handle events p.

End WithThree.
End Part000Page.

(** ** A concrete library, for closed examples

    Every object is the cube from [-1,-1,-1] to [1,1,1] scaled by its own
    [scale]; [updateProjectionMatrix] and [update] change nothing (every
    controller behaves as one at rest). *)
Definition cube_three : Three :=
  {| Box3 := Vector3 * Vector3;
     Box3_setFromObject := fun o =>
       let k := scale (data_of o) in
       (vec3 (- vx k) (- vy k) (- vz k), k);
     Box3_getSize := fun b =>
       vec3 (vx (snd b) - vx (fst b)) (vy (snd b) - vy (fst b)) (vz (snd b) - vz (fst b));
     Box3_getCenter := fun b =>
       Vector3Methods.multiplyScalar (Vector3Methods.add (fst b) (snd b)) 0.5;
     Box3_min := fst;
     updateProjectionMatrix := fun c => c;
     OrbitControls_update := fun c k => (c, k);
     PMREM_fromEquirectangular_texture := fun tex => S tex;
     updateProjectionMatrix_writes := fun c =>
       conj eq_refl (conj eq_refl (conj eq_refl eq_refl));
     OrbitControls_update_writes := fun c k =>
       conj eq_refl (conj eq_refl (conj eq_refl (conj eq_refl eq_refl)));
     OrbitControls_update_at_rest := fun c k H => conj eq_refl H;
     PMREM_fromEquirectangular_texture_fresh := fun tex tex' H => eq_add_S _ _ H |}.

(** *** A library whose controller turns

    [OrbitControls.update()] of three.js (r158) on the states of the model,
    for a controller the user does not touch.  With [autoRotate] on,
    [rotateLeft(getAutoRotationAngle())] takes [2 * PI / 60 / 60 *
    autoRotateSpeed] off [sphericalDelta.theta] ([autoRotateSpeed] is 2).
    The camera then turns about the vertical axis through the target by
    [sphericalDelta.theta * dampingFactor] with damping ([dampingFactor] is
    0.05), by [sphericalDelta.theta] without, keeping its height and its
    distance to the target; and [sphericalDelta.theta] is multiplied by
    [1 - dampingFactor] with damping, set to 0 without. *)
Definition autoRotationAngle : R := 2 * PI / 60 / 60 * 2.
Definition dampingFactor : R := 0.05.

(** The point [p] turned by [theta] about the vertical axis through [t]:
    the azimuth [atan2(x, z)] of [p - t] grows by [theta]. *)
Definition rotate_about (t : Vector3) (theta : R) (p : Vector3) : Vector3 :=
  let ox := vx p - vx t in
  let oz := vz p - vz t in
  vec3 (vx t + (ox * cos theta + oz * sin theta))
       (vy p)
       (vz t + (oz * cos theta - ox * sin theta)).

(** The rotation one call of [update] applies. *)
Definition applied_rotation (k : OrbitControls) : R :=
  let delta :=
    if autoRotate k then sphericalDelta_theta k - autoRotationAngle
    else sphericalDelta_theta k in
  if enableDamping k then delta * dampingFactor else delta.

(** The rotation one call of [update] leaves for the next. *)
Definition carried_rotation (k : OrbitControls) : R :=
  let delta :=
    if autoRotate k then sphericalDelta_theta k - autoRotationAngle
    else sphericalDelta_theta k in
  if enableDamping k then delta * (1 - dampingFactor) else 0.

Definition orbit_update (c : PerspectiveCamera) (k : OrbitControls)
  : PerspectiveCamera * OrbitControls :=
  (set_position c (rotate_about (target k) (applied_rotation k) (position c)),
   {| target := target k; enableDamping := enableDamping k;
      autoRotate := autoRotate k; sphericalDelta_theta := carried_rotation k |}).

Definition orbit_three : Three :=
  {| Box3 := Vector3 * Vector3;
     Box3_setFromObject := fun o =>
       let k := scale (data_of o) in
       (vec3 (- vx k) (- vy k) (- vz k), k);
     Box3_getSize := fun b =>
       vec3 (vx (snd b) - vx (fst b)) (vy (snd b) - vy (fst b)) (vz (snd b) - vz (fst b));
     Box3_getCenter := fun b =>
       Vector3Methods.multiplyScalar (Vector3Methods.add (fst b) (snd b)) 0.5;
     Box3_min := fst;
     updateProjectionMatrix := fun c => c;
     OrbitControls_update := orbit_update;
     PMREM_fromEquirectangular_texture := fun tex => S tex;
     updateProjectionMatrix_writes := fun c =>
       conj eq_refl (conj eq_refl (conj eq_refl eq_refl));
     OrbitControls_update_writes := ltac:(
       intros c k; repeat (split; [reflexivity |]);
       unfold orbit_update, distance_between, rotate_about; cbn [fst position set_position vx vy vz];
       f_equal;
       pose proof (sin2_cos2 (applied_rotation k)) as H; unfold Rsqr in H;
       set (si := sin (applied_rotation k)) in *;
       set (co := cos (applied_rotation k)) in *;
       set (ox := vx (position c) - vx (target k));
       set (oz := vz (position c) - vz (target k));
       replace (vx (target k) + (ox * co + oz * si) - vx (target k))
         with (ox * co + oz * si) by ring;
       replace (vz (target k) + (oz * co - ox * si) - vz (target k))
         with (oz * co - ox * si) by ring;
       replace ((ox * co + oz * si) * (ox * co + oz * si) +
                (vy (position c) - vy (target k)) * (vy (position c) - vy (target k)) +
                (oz * co - ox * si) * (oz * co - ox * si))
         with ((ox * ox + oz * oz) * (si * si + co * co) +
               (vy (position c) - vy (target k)) * (vy (position c) - vy (target k)))
         by ring;
       rewrite H; ring);
     OrbitControls_update_at_rest := ltac:(
       intros c k [Ha Hd];
       assert (Happ : applied_rotation k = 0)
         by (unfold applied_rotation; rewrite Ha, Hd; destruct (enableDamping k);
             [apply Rmult_0_l | reflexivity]);
       assert (Hcar : carried_rotation k = 0)
         by (unfold carried_rotation; rewrite Ha, Hd; destruct (enableDamping k);
             [apply Rmult_0_l | reflexivity]);
       split;
       [ unfold orbit_update, rotate_about; cbn [fst position set_position];
         rewrite Happ, cos_0, sin_0; destruct (position c) as [x y z];
         cbn [vx vy vz]; f_equal; ring
       | unfold at_rest, orbit_update; cbn [snd autoRotate sphericalDelta_theta];
         split; [exact Ha | exact Hcar] ]);
     PMREM_fromEquirectangular_texture_fresh := fun tex tex' H => eq_add_S _ _ H |}.

Definition one : Vector3 := vec3 1 1 1.

Definition plain_material : Material :=
  {| mat_map := Some {| isTexture := true; colorSpace := NoColorSpace |};
     mat_envMap := Some env_null |}.

Definition mesh (n : nat) : Object3D :=
  Node {| id := n; isMesh := true; castShadow := false; receiveShadow := false;
          material := Some plain_material; scale := one |} [].

Definition group (n : nat) (cs : list Object3D) : Object3D :=
  Node {| id := n; isMesh := false; castShadow := false; receiveShadow := false;
          material := None; scale := one |} cs.

Definition sample_gltf : GLTF :=
  {| gltf_scene := Some (group 1 [mesh 2; group 3 [mesh 4]]);
     gltf_scenes := None; gltf_animations := None |}.

Definition sample_camera : PerspectiveCamera :=
  {| position := vec3 3 2 5; fov := 60; aspect := 1.5; near := 0.1; far := 1000;
     projectionMatrix := [] |}.

Definition sample_controls : OrbitControls :=
  {| target := vec3 0 0 0; enableDamping := true; autoRotate := false;
     sphericalDelta_theta := 0 |}.




Definition sample_app : Viewer.App :=
  {| Viewer.scene_children := [group 10 []; mesh 11];
     Viewer.currentModel := Some (mesh 11);
     Viewer.cache := ∅;
     Viewer.loader_calls := [];
     Viewer.camera := sample_camera;
     Viewer.controls := sample_controls;
     Viewer.grid_position_y := 0;
     Viewer.statusEl_textContent := "" |}.


Definition live_signal : AbortSignal := {| aborted := false; listeners := [] |}.
Definition dead_signal : AbortSignal := {| aborted := true; listeners := [] |}.

Definition sceneless_gltf : GLTF :=
  {| gltf_scene := None; gltf_scenes := Some []; gltf_animations := None |}.

(** [sample_app] with its current model in the cache. *)
Definition cached_app : Viewer.App :=
  {| Viewer.scene_children := [group 10 []; mesh 11];
     Viewer.currentModel := Some (mesh 11);
     Viewer.cache := {[ "plus1pm"%string := mesh 11 ]};
     Viewer.loader_calls := [Some "./assets/shelly2.glb"%string];
     Viewer.camera := sample_camera;
     Viewer.controls := sample_controls;
     Viewer.grid_position_y := 0;
     Viewer.statusEl_textContent := "" |}.

Definition sample_page : Part000Page.Page :=
  {| Part000Page.app := sample_app;
     Part000Page.bgOn := true;
     Part000Page.gradientBackground_visible := true;
     Part000Page.scene_background := 0x1a1a1a%N;
     Part000Page.renderer_clearColor := 0%N;
     Part000Page.grid_visible := false;
     Part000Page.btnAuto_aria_pressed := "false";
     Part000Page.btnBg_aria_pressed := "true";
     Part000Page.btnGrid_aria_pressed := "false";
     Part000Page.renderer_size := (800, 600) |}.

Definition plus1pm : Viewer.Variant :=
  Viewer.Build_Variant "Shelly Plus 1PM" "./assets/shelly2.glb" 1.

Definition plus2pm : Viewer.Variant :=
  Viewer.Build_Variant "Shelly Plus 2PM" "./assets/shelly.glb" 1.

(** ** Vocabulary of the statements *)

(** A mesh that casts and receives shadows and whose base-color texture, if
    its material has one, is in the sRGB color space.  Objects that are not
    meshes satisfy it as they are. *)
Definition shadowed_sRGB (o : NodeData) : Prop :=
  isMesh o = true ->
  castShadow o = true /\
  receiveShadow o = true /\
  forall m t, material o = Some m -> mat_map m = Some t -> isTexture t = true ->
              colorSpace t = SRGBColorSpace.

(** What the first traversal of [load] makes of an object [d], in the object
    [d'] it leaves: the same object, of the same kind, with a material when
    it had one and a [map] when that had one; a mesh casts and receives
    shadows; a [map] is a texture when it was one, and the texture of a mesh
    is in the sRGB color space. *)
Definition marked_by_load (d d' : NodeData) : Prop :=
  id d' = id d /\ isMesh d' = isMesh d /\
  (isMesh d = true -> castShadow d' = true /\ receiveShadow d' = true) /\
  match material d, material d' with
  | None, None => True
  | Some m, Some m' =>
      match mat_map m, mat_map m' with
      | None, None => True
      | Some t, Some t' =>
          isTexture t' = isTexture t /\
          (isMesh d = true -> isTexture t = true -> colorSpace t' = SRGBColorSpace)
      | _, _ => False
      end
  | _, _ => False
  end.

(** Two objects that differ in the [envMap] slot at most. *)
Definition same_but_envMap (d d' : NodeData) : Prop :=
  id d' = id d /\ isMesh d' = isMesh d /\ castShadow d' = castShadow d /\
  receiveShadow d' = receiveShadow d /\ scale d' = scale d /\
  option_map mat_map (material d') = option_map mat_map (material d).

(** The [envMap] slot of every object of a subtree, in visiting order:
    [None] for an object without material, [Some None] for a material
    without the property. *)
Definition envMap_slots (o : Object3D) : list (option (option EnvValue)) :=
  List.map (fun d => option_map mat_envMap (material d)) (nodes o).

(** The events that are callbacks of GLTFLoader. *)
Definition backend_event (ev : LoadEvent) : bool :=
  match ev with abort => false | _ => true end.

(** The two error kinds of the load contract. *)
Definition is_Cancelled (e : Error) : Prop := e = AbortError.
Definition is_LoadFailed (e : Error) : Prop := exists msg, e = GLTFLoaderError msg.

(** The [envMap] slot the second traversal of [load] leaves on an object:
    the environment texture on a mesh whose material has the property, the
    slot as it was everywhere else. *)
Definition env_slot_after (env : nat) (d : NodeData) : option (option EnvValue) :=
  match material d with
  | Some m =>
      Some (if isMesh d
            then match mat_envMap m with
                 | Some _ => Some (env_texture env)
                 | None => None
                 end
            else mat_envMap m)
  | None => None
  end.

(** What [load] keeps of an object [d] in the object [d'] it leaves: the
    identity, the kind, the scale, whether there is a material, and all of it
    when [d] is not a mesh. *)
Definition kept_by_load (d d' : NodeData) : Prop :=
  id d' = id d /\ isMesh d' = isMesh d /\ scale d' = scale d /\
  (material d' = None <-> material d = None) /\
  (isMesh d = false -> d' = d).

(** The camera and the controller [ModelManager.frameObject] hands to
    [controls.update()], lines 71 to 82 done. *)
Definition framed_camera `{Three} (object : Object3D) (camera : PerspectiveCamera)
    (padding : R) : PerspectiveCamera :=
  let center := Box3_getCenter (Box3_setFromObject object) in
  let dist := ModelManager.frameObject_dist object camera padding in
  let dir := Vector3Methods.normalize (vec3 1 0.6 1) in
  updateProjectionMatrix
    (set_far
       (set_near
          (set_position camera
             (Vector3Methods.add (Vector3Methods.copy (position camera) center)
                (Vector3Methods.multiplyScalar dir dist)))
          (dist / 100))
       (dist * 100)).

Definition framed_controls `{Three} (object : Object3D) (controls : OrbitControls)
  : OrbitControls :=
  set_target controls
    (Vector3Methods.copy (target controls)
       (Box3_getCenter (Box3_setFromObject object))).

(** The same for the [frameObject] of the scripts. *)
Definition script_framed_camera `{Three} (object : Object3D)
    (cam : PerspectiveCamera) : PerspectiveCamera :=
  let box := Box3_setFromObject object in
  let size := Vector3Methods.length (Box3_getSize box) in
  let center := Box3_getCenter box in
  let fitDist := size / (2 * tan ((fov cam * PI) / 360)) in
  let dir := Vector3Methods.normalize (vec3 1 0.6 1) in
  updateProjectionMatrix
    (set_far
       (set_near
          (set_position cam
             (Vector3Methods.add (Vector3Methods.copy (position cam) center)
                (Vector3Methods.multiplyScalar dir (fitDist * 1.3))))
          (size / 100))
       (size * 10)).

(** The identities of the children of the scene. *)
Definition ids_of (cs : list Object3D) : list nat :=
  List.map (fun o => id (data_of o)) cs.
Definition scene_ids (a : Viewer.App) : list nat :=
  ids_of (Viewer.scene_children a).

(** No object is in the scene twice, and the current model is in it. *)
Definition scene_consistent (a : Viewer.App) : Prop :=
  List.NoDup (scene_ids a) /\
  forall m, Viewer.currentModel a = Some m -> In (id (data_of m)) (scene_ids a).

(** The pose the script's camera and controller hold. *)
Definition view_pose (a : Viewer.App) : CameraPose :=
  pose_of (Viewer.camera a, Viewer.controls a).

(** What follows the call of [frameObject] in [setVariant] leaves the scene,
    the current model, the cache, the loader and the view alone. *)
Definition finish_local (finish : Viewer.Cfg -> Object3D -> Viewer.App -> Viewer.App)
  : Prop :=
  forall cfg model a,
    Viewer.scene_children (finish cfg model a) = Viewer.scene_children a /\
    Viewer.currentModel (finish cfg model a) = Viewer.currentModel a /\
    Viewer.cache (finish cfg model a) = Viewer.cache a /\
    Viewer.loader_calls (finish cfg model a) = Viewer.loader_calls a /\
    Viewer.camera (finish cfg model a) = Viewer.camera a /\
    Viewer.controls (finish cfg model a) = Viewer.controls a.

(** The children of the scene once the current model, if any, has left. *)
Definition without_current (a : Viewer.App) : list Object3D :=
  match Viewer.currentModel a with
  | Some cur => Viewer.scene_remove (Viewer.scene_children a) cur
  | None => Viewer.scene_children a
  end.

(** The state in which [setVariant] leaves [a] when it shows [model]: the
    model is the current one and the last child of the scene, the cache and
    the loader calls are [m] and [calls], the field of view is what it was
    and the pose is the one [frameObject] computes for the model. *)
Definition shows `{Three} (a a' : Viewer.App) (model : Object3D)
    (m : gmap string Object3D) (calls : list (option string)) : Prop :=
  Viewer.currentModel a' = Some model /\
  Viewer.scene_children a' = Viewer.scene_add (without_current a) model /\
  Viewer.cache a' = m /\
  Viewer.loader_calls a' = calls /\
  fov (Viewer.camera a') = fov (Viewer.camera a) /\
  view_pose a' =
    pose_of (Viewer.frameObject model (Viewer.camera a) (Viewer.controls a)).

(** The state in which a call of [setVariant] that misses the cache leaves
    [a] while it waits for the loader, asked for [u]. *)
Definition waiting_state (a : Viewer.App) (u : string) : Viewer.App :=
  {| Viewer.scene_children := without_current a;
     Viewer.currentModel := None;
     Viewer.cache := Viewer.cache a;
     Viewer.loader_calls := Viewer.loader_calls a ++ [Some u];
     Viewer.camera := Viewer.camera a;
     Viewer.controls := Viewer.controls a;
     Viewer.grid_position_y := Viewer.grid_position_y a;
     Viewer.statusEl_textContent := Viewer.statusEl_textContent a |}.

(** The state [b'] in which a resumed call leaves the state [b] it resumes
    on: the model is the current one and joins the children [b] had at the
    end, it is in the cache under the name, no loader is called, the field of
    view is what it was and the pose is the one [frameObject] computes from
    what [b] held. *)
Definition shown_on `{Three} (b b' : Viewer.App) (model : Object3D)
    (name : string) : Prop :=
  Viewer.currentModel b' = Some model /\
  Viewer.scene_children b' = Viewer.scene_add (Viewer.scene_children b) model /\
  Viewer.cache b' = <[name := model]> (Viewer.cache b) /\
  Viewer.loader_calls b' = Viewer.loader_calls b /\
  fov (Viewer.camera b') = fov (Viewer.camera b) /\
  view_pose b' =
    pose_of (Viewer.frameObject model (Viewer.camera b) (Viewer.controls b)).


(** How often an event occurs in a run. *)
Definition is_click_btnBg (ev : Part000Page.PageEvent) : bool :=
  match ev with Part000Page.click_btnBg => true | _ => false end.
Definition is_click_btnGrid (ev : Part000Page.PageEvent) : bool :=
  match ev with Part000Page.click_btnGrid => true | _ => false end.
Definition clicks (which : Part000Page.PageEvent -> bool)
    (events : list Part000Page.PageEvent) : nat :=
  List.length (List.filter which events).

(** The events that do not reach [frameObject]: the three toggles and the
    resize. *)
Definition leaves_view (ev : Part000Page.PageEvent) : bool :=
  match ev with
  | Part000Page.click_recenter | Part000Page.change_variant _ _ => false
  | _ => true
  end.

(** What the grid button keeps in step with the grid's visibility. *)
Definition grid_in_step (p : Part000Page.Page) : Prop :=
  Part000Page.btnGrid_aria_pressed p =
  Part000Page.String_of_bool (Part000Page.grid_visible p).

(** What the background button keeps in step with [bgOn]. *)
Definition background_in_step (p : Part000Page.Page) : Prop :=
  let b := Part000Page.bgOn p in
  Part000Page.gradientBackground_visible p = b /\
  Part000Page.scene_background p = (if b then 0x1a1a1a%N else 0x111111%N) /\
  Part000Page.renderer_clearColor p = Part000Page.scene_background p /\
  Part000Page.btnBg_aria_pressed p = Part000Page.String_of_bool b.

(** * Properties *)

(** ** Vectors and the framing distance *)

Lemma half_fov_in_range (fovDeg : R) :
  0 < fovDeg -> fovDeg < 180 ->
  0 < deg2rad fovDeg / 2 /\ deg2rad fovDeg / 2 < PI / 2.
Proof.
  intros Hlo Hhi. unfold deg2rad.
  pose proof PI_RGT_0 as Hpi.
  split; nra.
Qed.

Lemma tan_half_fov_pos (fovDeg : R) :
  0 < fovDeg -> fovDeg < 180 -> 0 < tan (deg2rad fovDeg / 2).
Proof.
  intros Hlo Hhi.
  destruct (half_fov_in_range fovDeg Hlo Hhi) as [H0 H1].
  now apply tan_gt_0.
Qed.

Lemma Math_max3_is_an_argument (a b c : R) :
  Math_max3 a b c = a \/ Math_max3 a b c = b \/ Math_max3 a b c = c.
Proof.
  unfold Math_max3, Rmax.
  repeat destruct (Rle_dec _ _); auto.
Qed.

Lemma Math_max3_upper_bound (a b c : R) :
  a <= Math_max3 a b c /\ b <= Math_max3 a b c /\ c <= Math_max3 a b c.
Proof.
  unfold Math_max3, Rmax.
  repeat destruct (Rle_dec _ _); repeat split; lra.
Qed.

Lemma Math_max3_same (x : R) : Math_max3 x x x = x.
Proof. unfold Math_max3. now rewrite !(Rmax_left x x) by lra. Qed.

Lemma dir_length_sq : 1 * 1 + 0.6 * 0.6 + 1 * 1 = 2.36.
Proof. lra. Qed.

Lemma dir_length_pos : 0 < Vector3Methods.length (vec3 1 0.6 1).
Proof.
  unfold Vector3Methods.length; cbn [vx vy vz].
  apply sqrt_lt_R0. lra.
Qed.

Lemma normalize_dir :
  Vector3Methods.normalize (vec3 1 0.6 1) =
  Vector3Methods.multiplyScalar (vec3 1 0.6 1) (1 / sqrt 2.36).
Proof.
  pose proof dir_length_pos as Hpos.
  unfold Vector3Methods.normalize, Vector3Methods.divideScalar,
    Vector3Methods.or_number.
  destruct (Req_dec_T _ 0) as [H0 | _]; [lra |].
  unfold Vector3Methods.length; cbn [vx vy vz].
  now rewrite dir_length_sq.
Qed.

Lemma normalize_dir_unit :
  Vector3Methods.length (Vector3Methods.normalize (vec3 1 0.6 1)) = 1.
Proof.
  rewrite normalize_dir.
  unfold Vector3Methods.length, Vector3Methods.multiplyScalar; cbn [vx vy vz].
  assert (Hs : 0 < sqrt 2.36) by (apply sqrt_lt_R0; lra).
  assert (Hsq : sqrt 2.36 * sqrt 2.36 = 2.36) by (apply sqrt_sqrt; lra).
  set (L := sqrt 2.36) in *.
  assert (Hinv : L * (1 / L) = 1) by (unfold Rdiv; rewrite Rmult_1_l; apply Rinv_r; lra).
  set (x := 1 / L) in *.
  replace (1 * x * (1 * x) + 0.6 * x * (0.6 * x) + 1 * x * (1 * x))
    with ((L * L) * (x * x)) by (rewrite Hsq; lra).
  replace (L * L * (x * x)) with ((L * x) * (L * x)) by lra.
  rewrite Hinv, Rmult_1_l.
  apply sqrt_1.
Qed.

Lemma dir_unit_square :
  let u := Vector3Methods.normalize (vec3 1 0.6 1) in
  vx u * vx u + vy u * vy u + vz u * vz u = 1.
Proof.
  cbv zeta. pose proof normalize_dir_unit as H.
  unfold Vector3Methods.length in H.
  set (q := _ + _ + _) in *.
  assert (Hq : 0 <= q) by (subst q; nra).
  rewrite <- (sqrt_sqrt q Hq), H. lra.
Qed.

Lemma distance_along_unit (c u : Vector3) (d : R) :
  vx u * vx u + vy u * vy u + vz u * vz u = 1 ->
  distance_between (Vector3Methods.add c (Vector3Methods.multiplyScalar u d)) c =
  Rabs d.
Proof.
  intros Hu. unfold distance_between, Vector3Methods.add,
    Vector3Methods.multiplyScalar. cbn [vx vy vz].
  rewrite <- sqrt_Rsqr_abs. f_equal. unfold Rsqr.
  transitivity ((vx u * vx u + vy u * vy u + vz u * vz u) * (d * d)); [ring |].
  rewrite Hu. ring.
Qed.

Lemma length_nonneg (v : Vector3) : 0 <= Vector3Methods.length v.
Proof. apply sqrt_pos. Qed.

Lemma length_zero_iff (v : Vector3) :
  Vector3Methods.length v = 0 <-> v = vec3 0 0 0.
Proof.
  unfold Vector3Methods.length. destruct v as [x y z]. cbn [vx vy vz]. split.
  - intros H. apply sqrt_eq_0 in H; [| nra].
    assert (x = 0) by nra. assert (y = 0) by nra. assert (z = 0) by nra.
    now subst.
  - intros H. injection H as -> -> ->.
    replace (0 * 0 + 0 * 0 + 0 * 0) with 0 by ring. apply sqrt_0.
Qed.

Lemma Math_max3_le_length (v : Vector3) :
  Rabs (Math_max3 (vx v) (vy v) (vz v)) <= Vector3Methods.length v.
Proof.
  unfold Vector3Methods.length.
  set (q := _ + _ + _).
  assert (Hc : forall c, c * c <= q -> Rabs c <= sqrt q).
  { intros c Hc. rewrite <- sqrt_Rsqr_abs. apply sqrt_le_1_alt. exact Hc. }
  destruct (Math_max3_is_an_argument (vx v) (vy v) (vz v)) as [-> | [-> | ->]];
    apply Hc; subst q; nra.
Qed.

Lemma distance_zero (a b : Vector3) : distance_between a b = 0 -> a = b.
Proof.
  unfold distance_between. destruct a as [x y z], b as [x' y' z'].
  cbn [vx vy vz]. intros H.
  pose proof (Rle_0_sqr (x - x')) as Hx. pose proof (Rle_0_sqr (y - y')) as Hy.
  pose proof (Rle_0_sqr (z - z')) as Hz. unfold Rsqr in Hx, Hy, Hz.
  apply sqrt_eq_0 in H; [| lra].
  assert (x - x' = 0) by (apply Rsqr_0_uniq; unfold Rsqr; lra).
  assert (y - y' = 0) by (apply Rsqr_0_uniq; unfold Rsqr; lra).
  assert (z - z' = 0) by (apply Rsqr_0_uniq; unfold Rsqr; lra).
  f_equal; lra.
Qed.

(** ** [frameObject], of [ModelManager] and of the scripts *)

Section FrameObject.
Context {three : Three}.
Import ModelManager.

Lemma at_rest_set_target (k : OrbitControls) (v : Vector3) :
  at_rest (set_target k v) <-> at_rest k.
Proof. unfold at_rest. cbn. tauto. Qed.

Lemma copy_is (v w : Vector3) : Vector3Methods.copy v w = w.
Proof. now destruct w. Qed.

Lemma frameObject_hands_over (object : Object3D) (camera : PerspectiveCamera)
    (controls : OrbitControls) (padding : R) :
  frameObject object camera controls padding =
  OrbitControls_update (framed_camera object camera padding)
    (framed_controls object controls).
Proof. reflexivity. Qed.

Lemma framed_camera_holds (object : Object3D) (camera : PerspectiveCamera)
    (padding : R) :
  let center := Box3_getCenter (Box3_setFromObject object) in
  let dist := frameObject_dist object camera padding in
  let c := framed_camera object camera padding in
  position c =
    Vector3Methods.add center
      (Vector3Methods.multiplyScalar (Vector3Methods.normalize (vec3 1 0.6 1)) dist) /\
  near c = dist / 100 /\ far c = dist * 100 /\ fov c = fov camera.
Proof.
  cbv zeta. unfold framed_camera.
  match goal with
  | |- context [updateProjectionMatrix ?c] =>
      destruct (updateProjectionMatrix_writes c) as (Hp & Hf & Hn & Hr)
  end.
  rewrite Hp, Hf, Hn, Hr.
  cbn [set_far set_near set_position position near far fov].
  rewrite copy_is. repeat split.
Qed.

Lemma framed_controls_holds (object : Object3D) (controls : OrbitControls) :
  target (framed_controls object controls) =
    Box3_getCenter (Box3_setFromObject object) /\
  (at_rest (framed_controls object controls) <-> at_rest controls).
Proof.
  unfold framed_controls. split; [cbn; apply copy_is | apply at_rest_set_target].
Qed.

(** What [frameObject] leaves for every controller. *)
Lemma frameObject_writes (object : Object3D) (camera : PerspectiveCamera)
    (controls : OrbitControls) (padding : R) :
  let center := Box3_getCenter (Box3_setFromObject object) in
  let dist := frameObject_dist object camera padding in
  let s := frameObject object camera controls padding in
  near (fst s) = dist / 100 /\
  far (fst s) = dist * 100 /\
  fov (fst s) = fov camera /\
  target (snd s) = center /\
  distance_between (position (fst s)) center = Rabs dist.
Proof.
  cbv zeta. rewrite frameObject_hands_over.
  destruct (OrbitControls_update_writes (framed_camera object camera padding)
              (framed_controls object controls)) as (Hf & Hn & Hr & Ht & Hd).
  destruct (framed_camera_holds object camera padding) as (Hp' & Hn' & Hr' & Hf').
  destruct (framed_controls_holds object controls) as (Ht' & _).
  cbv zeta in Hp', Hn', Hr', Hf'.
  rewrite Hf, Hn, Hr, Ht, Hn', Hr', Hf', Ht'. rewrite Ht' in Hd. rewrite Hd, Hp'.
  repeat split. apply distance_along_unit, dir_unit_square.
Qed.




Lemma half_angle_of_script (f : R) : f * PI / 360 = deg2rad f / 2.
Proof. unfold deg2rad. lra. Qed.

Lemma Viewer_frameObject_hands_over (object : Object3D) (cam : PerspectiveCamera)
    (controls : OrbitControls) :
  Viewer.frameObject object cam controls =
  OrbitControls_update (script_framed_camera object cam)
    (framed_controls object controls).
Proof. reflexivity. Qed.

Lemma script_framed_camera_holds (object : Object3D) (cam : PerspectiveCamera) :
  let box := Box3_setFromObject object in
  let size := Vector3Methods.length (Box3_getSize box) in
  let fitDist := size / (2 * tan ((fov cam * PI) / 360)) in
  let c := script_framed_camera object cam in
  position c =
    Vector3Methods.add (Box3_getCenter box)
      (Vector3Methods.multiplyScalar (Vector3Methods.normalize (vec3 1 0.6 1))
         (fitDist * 1.3)) /\
  near c = size / 100 /\ far c = size * 10 /\ fov c = fov cam.
Proof.
  cbv zeta. unfold script_framed_camera.
  match goal with
  | |- context [updateProjectionMatrix ?c] =>
      destruct (updateProjectionMatrix_writes c) as (Hp & Hf & Hn & Hr)
  end.
  rewrite Hp, Hf, Hn, Hr.
  cbn [set_far set_near set_position position near far fov].
  rewrite copy_is. repeat split.
Qed.

(** What the scripts' [frameObject] leaves for every controller: it is
    another routine, with the length of the diagonal of the box for a size,
    the fixed factor 1.3, and clip planes [size / 100] and [size * 10]. *)
Lemma Viewer_frameObject_writes (object : Object3D) (cam : PerspectiveCamera)
    (controls : OrbitControls) :
  let box := Box3_setFromObject object in
  let size := Vector3Methods.length (Box3_getSize box) in
  let fitDist := size / (2 * tan ((fov cam * PI) / 360)) in
  let s := Viewer.frameObject object cam controls in
  near (fst s) = size / 100 /\
  far (fst s) = size * 10 /\
  fov (fst s) = fov cam /\
  target (snd s) = Box3_getCenter box /\
  distance_between (position (fst s)) (Box3_getCenter box) = Rabs (fitDist * 1.3).
Proof.
  cbv zeta. rewrite Viewer_frameObject_hands_over.
  destruct (OrbitControls_update_writes (script_framed_camera object cam)
              (framed_controls object controls)) as (Hf & Hn & Hr & Ht & Hd).
  destruct (script_framed_camera_holds object cam) as (Hp' & Hn' & Hr' & Hf').
  destruct (framed_controls_holds object controls) as (Ht' & _).
  cbv zeta in Hp', Hn', Hr', Hf'.
  rewrite Hf, Hn, Hr, Ht, Hn', Hr', Hf', Ht'. rewrite Ht' in Hd. rewrite Hd, Hp'.
  repeat split. apply distance_along_unit, dir_unit_square.
Qed.


Lemma Viewer_frameObject_fov (object : Object3D) (cam : PerspectiveCamera)
    (controls : OrbitControls) :
  fov (fst (Viewer.frameObject object cam controls)) = fov cam.
Proof.
  destruct (Viewer_frameObject_writes object cam controls) as (_ & _ & Hf & _).
  exact Hf.
Qed.

(** C3, as the code has it: [ModelManager.frameObject] works from the
    distance [d = (max(sx, sy, sz) / (2 * tan(fov_radians / 2))) * padding],
    where [(sx, sy, sz)] is the size of the object's bounding box and
    [fov_radians] the camera's [fov] times [PI / 180]: the clip planes it
    sets are [d / 100] and [d * 100] and the camera it leaves is at distance
    [|d|] from the target; the padding is 1.25 when the call gives none; the
    size that enters is one of the three extents, and the largest.  The
    [frameObject] of the scripts is another routine: it leaves the camera at
    [(length(sx, sy, sz) / (2 * tan(fov_radians / 2))) * 1.3] from the
    target, the length of the diagonal taking all three extents in. *)
Theorem frameObject_distance (object : Object3D) (camera : PerspectiveCamera)
    (controls : OrbitControls) :
  let sz := Box3_getSize (Box3_setFromObject object) in
  let maxDim := Math_max3 (vx sz) (vy sz) (vz sz) in
  let d padding := (maxDim / (2 * tan ((fov camera * PI / 180) / 2))) * padding in
  (forall padding,
      let s := frameObject object camera controls padding in
      near (fst s) = d padding / 100 /\
      far (fst s) = d padding * 100 /\
      distance_between (position (fst s)) (target (snd s)) = Rabs (d padding)) /\
  frameObject_js object camera controls None =
    frameObject object camera controls 1.25 /\
  (forall padding,
      frameObject_js object camera controls (Some padding) =
      frameObject object camera controls padding) /\
  (maxDim = vx sz \/ maxDim = vy sz \/ maxDim = vz sz) /\
  (vx sz <= maxDim /\ vy sz <= maxDim /\ vz sz <= maxDim) /\
  (let v := Viewer.frameObject object camera controls in
   distance_between (position (fst v)) (target (snd v)) =
   Rabs ((Vector3Methods.length sz / (2 * tan ((fov camera * PI / 180) / 2))) * 1.3)).
Proof.
  cbv zeta. split; [| split; [reflexivity | split; [reflexivity |]]].
  - intros padding.
    destruct (frameObject_writes object camera controls padding)
      as (Hn & Hr & _ & Ht & Hd).
    cbv zeta in Hn, Hr, Ht, Hd. rewrite Ht. split; [exact Hn |].
    split; [exact Hr | exact Hd].
  - split; [apply Math_max3_is_an_argument |].
    split; [apply Math_max3_upper_bound |].
    destruct (Viewer_frameObject_writes object camera controls)
      as (_ & _ & _ & Ht & Hd).
    cbv zeta in Ht, Hd. rewrite Ht, Hd, half_angle_of_script. reflexivity.
Qed.

(** C4, as the code has it: with [d] the distance [ModelManager.frameObject]
    computes, the near plane it sets is [d / 100] and the far plane
    [d * 100]; near is below far when [d] is positive; and a run whose
    distance is [k] times [d] has near and far planes [k] times those of
    this run.  The [frameObject] of the scripts sets the planes from the
    size of the box, not from its distance: near is [size / 100] and far
    [size * 10], [size] being the length of the diagonal, so far is 1000
    times near, and near is below far when [size] is positive. *)
Theorem frameObject_clip_planes (object : Object3D) (camera : PerspectiveCamera)
    (controls : OrbitControls) (padding : R) :
  let d := frameObject_dist object camera padding in
  let s := frameObject object camera controls padding in
  let size := Vector3Methods.length (Box3_getSize (Box3_setFromObject object)) in
  let v := Viewer.frameObject object camera controls in
  near (fst s) = d / 100 /\
  far (fst s) = d * 100 /\
  (0 < d -> near (fst s) < far (fst s)) /\
  (forall object' camera' controls' padding' k,
      frameObject_dist object' camera' padding' = k * d ->
      let s' := frameObject object' camera' controls' padding' in
      near (fst s') = k * near (fst s) /\ far (fst s') = k * far (fst s)) /\
  near (fst v) = size / 100 /\
  far (fst v) = size * 10 /\
  far (fst v) = 1000 * near (fst v) /\
  (0 < size -> near (fst v) < far (fst v)).
Proof.
  cbv zeta.
  destruct (frameObject_writes object camera controls padding)
    as (Hn & Hf & _).
  destruct (Viewer_frameObject_writes object camera controls)
    as (Hn2 & Hf2 & _).
  cbv zeta in Hn, Hf, Hn2, Hf2.
  split; [exact Hn |]. split; [exact Hf |]. split; [| split].
  - intros Hd. rewrite Hn, Hf. lra.
  - intros o' c' k' p' k Hk.
    destruct (frameObject_writes o' c' k' p') as (Hn' & Hf' & _).
    cbv zeta in Hn', Hf'.
    rewrite Hn', Hf', Hn, Hf, Hk. split; lra.
  - rewrite Hn2, Hf2. repeat split; try lra.
Qed.




End FrameObject.

(** C7: for a field of view strictly between 0 and 180 degrees, the framing
    distance [(s / (2 * tan(fov / 2))) * padding] is strictly increasing in
    the size [s > 0] at every fixed [padding >= 1], and strictly increasing
    in [padding >= 1] at every fixed size [s > 0]. *)
Theorem frameDist_strictly_increasing (fovDeg : R) :
  0 < fovDeg -> fovDeg < 180 ->
  (forall s1 s2 padding,
      0 < s1 -> s1 < s2 -> 1 <= padding ->
      frameDist s1 (deg2rad fovDeg) padding < frameDist s2 (deg2rad fovDeg) padding) /\
  (forall s padding1 padding2,
      0 < s -> 1 <= padding1 -> padding1 < padding2 ->
      frameDist s (deg2rad fovDeg) padding1 < frameDist s (deg2rad fovDeg) padding2).
Proof.
  intros Hlo Hhi.
  pose proof (tan_half_fov_pos fovDeg Hlo Hhi) as Ht.
  assert (Hk : 0 < / (2 * tan (deg2rad fovDeg / 2)))
    by (apply Rinv_0_lt_compat; lra).
  unfold frameDist, Rdiv.
  set (k := / (2 * tan (deg2rad fovDeg / 2))) in *.
  split.
  - intros s1 s2 p Hs1 Hs Hp.
    apply Rmult_lt_compat_r; [lra |].
    apply Rmult_lt_compat_r; assumption.
  - intros s p1 p2 Hs Hp1 Hp.
    apply Rmult_lt_compat_l; [| assumption].
    apply Rmult_lt_0_compat; assumption.
Qed.

(** ** Traversal *)

Lemma Object3D_nested_ind (P : Object3D -> Prop) :
  (forall d cs, Forall P cs -> P (Node d cs)) -> forall o, P o.
Proof.
  intros step. fix IH 1. intros [d cs]. apply step.
  induction cs as [| c cs IHcs]; constructor; [apply IH | exact IHcs].
Qed.

Lemma nodes_traverse (f : NodeData -> NodeData) (o : Object3D) :
  nodes (traverse f o) = List.map f (nodes o).
Proof.
  induction o as [d cs IH] using Object3D_nested_ind.
  cbn [traverse nodes List.map]. f_equal.
  induction IH as [| c cs Hc _ IHcs]; [reflexivity |].
  cbn [List.map List.flat_map]. rewrite List.map_app, Hc, IHcs. reflexivity.
Qed.

Lemma traverse_traverse (f g : NodeData -> NodeData) (o : Object3D) :
  traverse f (traverse g o) = traverse (fun d => f (g d)) o.
Proof.
  induction o as [d cs IH] using Object3D_nested_ind.
  cbn [traverse]. f_equal. rewrite List.map_map.
  induction IH as [| c cs Hc _ IHcs]; [reflexivity |].
  cbn [List.map]. now rewrite Hc, IHcs.
Qed.

Lemma traverse_ext (f g : NodeData -> NodeData) (o : Object3D) :
  (forall d, f d = g d) -> traverse f o = traverse g o.
Proof.
  intros Hfg. induction o as [d cs IH] using Object3D_nested_ind.
  cbn [traverse]. rewrite Hfg. f_equal.
  induction IH as [| c cs Hc _ IHcs]; [reflexivity |].
  cbn [List.map]. now rewrite Hc, IHcs.
Qed.

Lemma Forall2_map_same {A : Type} (P : A -> A -> Prop) (f : A -> A) (l : list A) :
  (forall x, P x (f x)) -> Forall2 P l (List.map f l).
Proof. intros H. induction l; constructor; auto. Qed.

Section Load.
Context {three : Three}.
Import ModelManager.

Lemma mark_mesh_shadowed_sRGB (d : NodeData) : shadowed_sRGB (mark_mesh d).
Proof.
  unfold shadowed_sRGB, mark_mesh.
  destruct (isMesh d) eqn:Hm; [| intros H; congruence].
  cbn [isMesh castShadow receiveShadow material]. intros _.
  split; [reflexivity |]. split; [reflexivity |].
  intros m t Hmat Hmap Htex.
  unfold force_sRGB in Hmat.
  destruct (material d) as [[[t0 |] e] |]; try discriminate.
  - destruct (isTexture t0) eqn:Ht0.
    + injection Hmat as <-. cbn [mat_map] in Hmap. injection Hmap as <-.
      reflexivity.
    + injection Hmat as <-. cbn [mat_map] in Hmap. injection Hmap as <-.
      congruence.
  - injection Hmat as <-. discriminate.
Qed.

Lemma apply_env_shadowed_sRGB (env : nat) (d : NodeData) :
  shadowed_sRGB d -> shadowed_sRGB (apply_env env d).
Proof.
  unfold shadowed_sRGB, apply_env. intros H.
  destruct (isMesh d) eqn:Hm; [| intros Hm'; congruence].
  destruct (material d) as [[t [e |]] |] eqn:Hmat;
    try (intros _; rewrite Hmat; exact (H eq_refl)).
  cbn [isMesh castShadow receiveShadow material]. intros _.
  destruct (H eq_refl) as (Hc & Hr & Ht).
  split; [exact Hc |]. split; [exact Hr |].
  intros m t' Hm' Hmap Htex. injection Hm' as <-. cbn [mat_map] in Hmap.
  apply (Ht _ t' eq_refl); assumption.
Qed.

Lemma mark_mesh_keeps_envMap (d : NodeData) :
  option_map mat_envMap (material (mark_mesh d)) =
  option_map mat_envMap (material d).
Proof.
  unfold mark_mesh. destruct (isMesh d); [| reflexivity].
  cbn [material]. unfold force_sRGB.
  destruct (material d) as [[[t |] e] |]; try reflexivity.
  destruct (isTexture t); reflexivity.
Qed.

Lemma traverse_mark_mesh_envMap_slots (o : Object3D) :
  envMap_slots (traverse mark_mesh o) = envMap_slots o.
Proof.
  unfold envMap_slots. rewrite nodes_traverse, List.map_map.
  apply List.map_ext. intros d. apply mark_mesh_keeps_envMap.
Qed.

Lemma mark_mesh_marked (d : NodeData) : marked_by_load d (mark_mesh d).
Proof.
  unfold marked_by_load, mark_mesh.
  destruct d as [i [|] c r [[[t |] e] |] k]; cbn;
    try (destruct (isTexture t) eqn:Ht; cbn);
    repeat split; intros; try reflexivity; try congruence.
Qed.

Lemma apply_env_mark_mesh_marked (env : nat) (d : NodeData) :
  marked_by_load d (apply_env env (mark_mesh d)).
Proof.
  unfold marked_by_load, apply_env, mark_mesh.
  destruct d as [i [|] c r [[[t |] [e |]] |] k]; cbn;
    try (destruct (isTexture t) eqn:Ht; cbn);
    repeat split; intros; try reflexivity; try congruence.
Qed.

(** C6: when [load] resolves, GLTFLoader has delivered a glTF with a root,
    and the root of the asset is that root, object for object in visiting
    order, after the marking: every mesh casts and receives shadows, and
    every mesh whose material has a base-color texture still has it, in the
    sRGB color space. *)
Theorem load_marks_every_mesh (url : string) (signal : option AbortSignal)
    (envMapHDR : option string) (events : list LoadEvent) (rgbe : RGBEOutcome)
    (asset : Asset) :
  result (load url signal envMapHDR events rgbe) = Fulfilled asset ->
  exists g root0,
    await_gltf signal events = Fulfilled g /\
    choose_root g = Some root0 /\
    Forall2 marked_by_load (nodes root0) (nodes (root asset)) /\
    Forall shadowed_sRGB (nodes (root asset)).
Proof.
  unfold load. intros H.
  destruct (await_gltf signal events) as [| scene | e]; try discriminate.
  destruct (choose_root scene) as [root0 |] eqn:Hroot; try discriminate.
  exists scene, root0. split; [reflexivity |]. split; [exact Hroot |].
  assert (Hmark : Forall shadowed_sRGB (nodes (traverse mark_mesh root0))).
  { rewrite nodes_traverse. apply List.Forall_map, List.Forall_forall.
    intros d _. apply mark_mesh_shadowed_sRGB. }
  destruct (truthy_string envMapHDR).
  - destruct rgbe as [tex | e |]; try discriminate.
    cbn [result] in H. injection H as <-. cbn [root make_asset]. split.
    + rewrite traverse_traverse, nodes_traverse.
      apply Forall2_map_same. intros d. apply apply_env_mark_mesh_marked.
    + rewrite nodes_traverse. apply List.Forall_map.
      eapply List.Forall_impl; [| exact Hmark].
      intros d. apply apply_env_shadowed_sRGB.
  - cbn [result] in H. injection H as <-. cbn [root make_asset]. split.
    + rewrite nodes_traverse. apply Forall2_map_same. apply mark_mesh_marked.
    + exact Hmark.
Qed.

End Load.

(** ** [ModelManager.load]: the two awaits *)

Section LoadOutcome.
Context {three : Three}.
Import ModelManager.

Lemma resolve_settled {A} (p : Settled A) (a : A) :
  p <> Pending -> resolve p a = p.
Proof. destruct p; intros H; [contradiction | reflexivity | reflexivity]. Qed.

Lemma reject_settled {A} (p : Settled A) (e : Error) :
  p <> Pending -> reject p e = p.
Proof. destruct p; intros H; [contradiction | reflexivity | reflexivity]. Qed.

Lemma run_listeners_settled (ls : list AbortListener) (p : Settled GLTF) :
  p <> Pending -> fold_left run_listener ls p = p.
Proof.
  revert p. induction ls as [| [] ls IH]; intros p Hp; [reflexivity |].
  cbn [fold_left run_listener]. rewrite (reject_settled p _ Hp). now apply IH.
Qed.

Lemma run_listeners_pending (ls : list AbortListener) :
  ls <> [] -> fold_left run_listener ls (@Pending GLTF) = Rejected AbortError.
Proof.
  destruct ls as [| [] ls]; [contradiction | intros _].
  cbn [fold_left run_listener reject].
  apply run_listeners_settled. discriminate.
Qed.

(** A settled promise stays as it is, whatever comes later. *)
Lemma deliver_settled (from_caller : bool) (events : list LoadEvent) (x : Executor) :
  promise x <> Pending ->
  promise (fold_left (deliver from_caller) events x) = promise x.
Proof.
  revert x. induction events as [| ev events IH]; intros x Hx; [reflexivity |].
  cbn [fold_left]. rewrite IH.
  - destruct ev; cbn [deliver promise].
    + now apply resolve_settled.
    + now apply reject_settled.
    + destruct from_caller; [| reflexivity].
      destruct (signal_abort (abortSignal x)) as [s ls]. cbn [promise].
      now apply run_listeners_settled.
  - destruct ev; cbn [deliver promise].
    + now rewrite resolve_settled.
    + now rewrite reject_settled.
    + destruct from_caller; [| exact Hx].
      destruct (signal_abort (abortSignal x)) as [s ls]. cbn [promise].
      now rewrite run_listeners_settled.
Qed.

(** The caller's signal is not aborted when [load] is called and [abort]
    is the first thing that happens: the first promise is rejected with the
    [AbortError], and so is [load]. *)
Lemma load_abort_first (url : string) (s : AbortSignal) (envMapHDR : option string)
    (rest : list LoadEvent) (rgbe : RGBEOutcome) :
  aborted s = false ->
  result (load url (Some s) envMapHDR (abort :: rest) rgbe) = Rejected AbortError.
Proof.
  intros Hs. unfold load.
  assert (Hp : await_gltf (Some s) (abort :: rest) = Rejected AbortError).
  { unfold await_gltf. cbn [fold_left deliver].
    unfold signal_abort, addEventListener_abort. cbn [aborted listeners abortSignal].
    rewrite Hs. cbn [promise].
    rewrite deliver_settled; cbn [promise].
    - apply run_listeners_pending. now destruct (listeners s).
    - rewrite run_listeners_pending; [discriminate | now destruct (listeners s)]. }
  now rewrite Hp.
Qed.

(** On a signal that is aborted already the listener is never called: the
    first promise settles as if no signal had been given. *)
Lemma await_gltf_on_aborted_signal (s : AbortSignal) (events : list LoadEvent) :
  aborted s = true ->
  await_gltf (Some s) events = await_gltf None (List.filter backend_event events).
Proof.
  intros Hs. unfold await_gltf.
  set (x1 := {| promise := Pending;
                abortSignal := addEventListener_abort s reject_Aborted |}).
  set (x2 := {| promise := Pending;
                abortSignal :=
                  addEventListener_abort new_AbortController_signal reject_Aborted |}).
  assert (H : promise x1 = promise x2 /\ aborted (abortSignal x1) = true)
    by (split; [reflexivity | exact Hs]).
  clearbody x1 x2. revert x1 x2 H.
  induction events as [| ev events IH]; intros x1 x2 [Hp Ha]; [exact Hp |].
  destruct ev; cbn [List.filter backend_event fold_left deliver].
  - apply IH. cbn [promise abortSignal]. now rewrite Hp.
  - apply IH. cbn [promise abortSignal]. now rewrite Hp.
  - unfold signal_abort. rewrite Ha. cbn [fold_left].
    apply IH. destruct x1; cbn [promise abortSignal] in *. now split.
Qed.

(** C1, as the code has it: with a truthy [envMapHDR], a first await that
    is fulfilled with a glTF that has a root, and an environment-map load
    that fails with [e], [load] is rejected with that error (which is
    neither the abort error nor one of GLTFLoader's), and the [envMap]
    slots of the root subtree are what they were. *)
Theorem load_env_failure_rejects (url : string) (signal : option AbortSignal)
    (envMapHDR : option string) (events : list LoadEvent) (e : string)
    (scene : GLTF) (root0 : Object3D) :
  truthy_string envMapHDR = true ->
  await_gltf signal events = Fulfilled scene ->
  choose_root scene = Some root0 ->
  let run := load url signal envMapHDR events (rgbe_failed e) in
  result run = Rejected (RGBELoaderError e) /\
  ~ is_Cancelled (RGBELoaderError e) /\
  ~ is_LoadFailed (RGBELoaderError e) /\
  exists r, root_after run = Some r /\ envMap_slots r = envMap_slots root0.
Proof.
  intros Henv Hscene Hroot. cbv zeta. unfold load.
  rewrite Hscene, Hroot, Henv. cbn [result root_after].
  split; [reflexivity |].
  split; [unfold is_Cancelled; discriminate |].
  split; [unfold is_LoadFailed; intros [msg Hmsg]; discriminate |].
  eexists. split; [reflexivity |]. apply traverse_mark_mesh_envMap_slots.
Qed.

End LoadOutcome.

(** ** [setVariant] *)

Section SetVariant.
Context {three : Three}.

Lemma get_property_unknown (obj : gmap string Viewer.Variant) (name : string) :
  obj !! name = None -> name ∉ Viewer.Object_prototype ->
  Viewer.get_property obj name = None.
Proof.
  intros Hown Hproto. unfold Viewer.get_property. rewrite Hown.
  now rewrite bool_decide_eq_false_2.
Qed.

(** X25: the guard of [setVariant]: for a name that is neither a key of the
    [VARIANTS] literal nor a name inherited from [Object.prototype],
    [setVariant] (of either script) returns at its guard: the whole state,
    so the scene's children, [currentModel], the cache and the list of
    loader calls, is what it was. *)
Theorem setVariant_unknown_name_no_effect (name : string)
    (response : Viewer.LoaderOutcome) (a : Viewer.App) :
  name ∉ Viewer.Object_prototype ->
  (Index.VARIANTS !! name = None ->
   Index.setVariant name response a = (a, Fulfilled tt)) /\
  (Part000.VARIANTS !! name = None ->
   Part000.setVariant name response a = (a, Fulfilled tt)).
Proof.
  intros Hproto. split; intros Hown.
  - unfold Index.setVariant, Viewer.setVariant_with, Viewer.setVariant_call.
    now rewrite (get_property_unknown _ _ Hown Hproto).
  - unfold Part000.setVariant, Viewer.setVariant_with, Viewer.setVariant_call.
    now rewrite (get_property_unknown _ _ Hown Hproto).
Qed.

End SetVariant.

(** ** Closed examples *)

Lemma setVariant_unknown_name_no_effect_witness :
  ("unknown" ∉ Viewer.Object_prototype) /\
  (Index.VARIANTS !! "unknown" = None) /\
  (Part000.VARIANTS !! "unknown" = None) /\
  Index.setVariant (three := cube_three) "unknown" Viewer.loader_silent sample_app =
    (sample_app, Fulfilled tt) /\
  Part000.setVariant (three := cube_three) "unknown" Viewer.loader_silent sample_app =
    (sample_app, Fulfilled tt).
Proof.
  assert (Hp : "unknown" ∉ Viewer.Object_prototype)
    by (apply (bool_decide_eq_false_1 _); vm_compute; reflexivity).
  assert (Hi : Index.VARIANTS !! "unknown" = None) by (vm_compute; reflexivity).
  assert (Hq : Part000.VARIANTS !! "unknown" = None) by (vm_compute; reflexivity).
  destruct (setVariant_unknown_name_no_effect (three := cube_three)
              "unknown" Viewer.loader_silent sample_app Hp) as [H1 H2].
  repeat split; auto.
Defined.

(** The setting of the examples below: the cube from [-1,-1,-1] to [1,1,1],
    a camera with a field of view of 60 degrees, padding 1.25. *)
Lemma sample_dist :
  ModelManager.frameObject_dist (three := cube_three) (mesh 1) sample_camera 1.25 =
  (2 / (2 * tan ((60 * PI / 180) / 2))) * 1.25.
Proof.
  unfold ModelManager.frameObject_dist, frameDist, deg2rad.
  cbn [cube_three Box3_setFromObject Box3_getSize mesh data_of scale one
       vx vy vz fst snd sample_camera fov].
  rewrite Math_max3_same.
  match goal with |- ?a / _ * _ = _ => replace a with 2 by lra end.
  reflexivity.
Qed.

Lemma sample_dist_pos :
  0 < ModelManager.frameObject_dist (three := cube_three) (mesh 1) sample_camera 1.25.
Proof.
  rewrite sample_dist.
  assert (Ht : 0 < tan (deg2rad 60 / 2)) by (apply tan_half_fov_pos; lra).
  unfold deg2rad in Ht.
  apply Rmult_lt_0_compat; [| lra].
  apply Rdiv_lt_0_compat; lra.
Qed.

Lemma frameObject_distance_witness :
  let s := ModelManager.frameObject_js (three := orbit_three) (mesh 1) sample_camera
             sample_controls None in
  near (fst s) = (2 / (2 * tan ((60 * PI / 180) / 2))) * 1.25 / 100.
Proof.
  cbv zeta.
  destruct (frameObject_distance (three := orbit_three) (mesh 1) sample_camera
              sample_controls) as (H & Hjs & _).
  rewrite Hjs. destruct (H 1.25) as (Hn & _). rewrite Hn.
  cbn [orbit_three Box3_setFromObject Box3_getSize mesh data_of scale one
       vx vy vz fst snd sample_camera fov].
  rewrite Math_max3_same.
  match goal with |- ?a / _ * _ / _ = _ => replace a with 2 by lra end.
  reflexivity.
Defined.

Lemma sample_size :
  Box3_getSize (Three := orbit_three)
    (Box3_setFromObject (Three := orbit_three) (mesh 1)) = vec3 2 2 2.
Proof.
  cbn [orbit_three Box3_setFromObject Box3_getSize mesh data_of scale one
       vx vy vz fst snd].
  match goal with |- vec3 ?a _ _ = _ => replace a with 2 by lra end.
  reflexivity.
Qed.


Lemma sample_diagonal :
  2 < Vector3Methods.length
        (Box3_getSize (Three := orbit_three)
           (Box3_setFromObject (Three := orbit_three) (mesh 1))).
Proof.
  rewrite sample_size. unfold Vector3Methods.length. cbn [vx vy vz].
  rewrite <- (sqrt_square 2) at 1 by lra. apply sqrt_lt_1; lra.
Qed.

Lemma orbit_sample_dist :
  ModelManager.frameObject_dist (three := orbit_three) (mesh 1) sample_camera 1.25 =
  ModelManager.frameObject_dist (three := cube_three) (mesh 1) sample_camera 1.25.
Proof. reflexivity. Qed.

(** C3 fails as it is stated on the [frameObject] of the scripts: for the
    cube of side 2 and a field of view of 60 degrees the camera is not left
    at [(max(sx, sy, sz) / (2 * tan(fov / 2))) * 1.25] from the target, but
    further away. *)
Lemma script_distance_differs :
  let v := Viewer.frameObject (three := orbit_three) (mesh 1) sample_camera
             sample_controls in
  let sz := Box3_getSize (Three := orbit_three)
              (Box3_setFromObject (Three := orbit_three) (mesh 1)) in
  let claimed :=
    (Math_max3 (vx sz) (vy sz) (vz sz) /
     (2 * tan ((fov sample_camera * PI / 180) / 2))) * 1.25 in
  sz = vec3 2 2 2 /\
  claimed < distance_between (position (fst v)) (target (snd v)) /\
  distance_between (position (fst v)) (target (snd v)) <> claimed.
Proof.
  cbv zeta. split; [exact sample_size |].
  assert (H : (Math_max3
                 (vx (Box3_getSize (Three := orbit_three)
                        (Box3_setFromObject (Three := orbit_three) (mesh 1))))
                 (vy (Box3_getSize (Three := orbit_three)
                        (Box3_setFromObject (Three := orbit_three) (mesh 1))))
                 (vz (Box3_getSize (Three := orbit_three)
                        (Box3_setFromObject (Three := orbit_three) (mesh 1)))) /
               (2 * tan ((fov sample_camera * PI / 180) / 2))) * 1.25 <
              distance_between
                (position (fst (Viewer.frameObject (three := orbit_three) (mesh 1)
                                  sample_camera sample_controls)))
                (target (snd (Viewer.frameObject (three := orbit_three) (mesh 1)
                                sample_camera sample_controls)))).
  { destruct (Viewer_frameObject_writes (three := orbit_three) (mesh 1)
                sample_camera sample_controls) as (_ & _ & _ & Ht & Hd).
    cbv zeta in Ht, Hd. rewrite Ht, Hd, half_angle_of_script.
    pose proof sample_diagonal as HL.
    set (L := Vector3Methods.length _) in *.
    rewrite sample_size. cbn [vx vy vz]. rewrite Math_max3_same.
    assert (Htan : 0 < tan (deg2rad (fov sample_camera) / 2))
      by (apply tan_half_fov_pos; cbn; lra).
    change (fov sample_camera * PI / 180) with (deg2rad (fov sample_camera)).
    set (t := tan (deg2rad (fov sample_camera) / 2)) in *.
    assert (Hk : 0 < / (2 * t)) by (apply Rinv_0_lt_compat; lra).
    unfold Rdiv. set (k := / (2 * t)) in *.
    rewrite Rabs_pos_eq by nra. nra. }
  split; [exact H | lra].
Qed.

Lemma frameObject_clip_planes_witness :
  let d := ModelManager.frameObject_dist (three := orbit_three) (mesh 1)
             sample_camera 1.25 in
  let s := ModelManager.frameObject (three := orbit_three) (mesh 1) sample_camera
             sample_controls 1.25 in
  let v := Viewer.frameObject (three := orbit_three) (mesh 1) sample_camera
             sample_controls in
  0 < d /\ near (fst s) = d / 100 /\ far (fst s) = d * 100 /\
  near (fst s) < far (fst s) /\ near (fst v) < far (fst v).
Proof.
  destruct (frameObject_clip_planes (three := orbit_three) (mesh 1) sample_camera
              sample_controls 1.25) as (Hn & Hf & Hlt & _ & _ & _ & _ & Hlt').
  cbv zeta.
  split; [exact sample_dist_pos |].
  split; [exact Hn |]. split; [exact Hf |].
  split; [exact (Hlt sample_dist_pos) |].
  apply Hlt'. pose proof sample_diagonal. lra.
Defined.

(** C4 fails as it is stated on the [frameObject] of the scripts: for the
    cube of side 2 there is no [d] of which the near plane is the hundredth
    and the far plane the hundredfold. *)
Lemma script_clip_planes_differ :
  let v := Viewer.frameObject (three := orbit_three) (mesh 1) sample_camera
             sample_controls in
  ~ exists d, near (fst v) = d / 100 /\ far (fst v) = d * 100.
Proof.
  cbv zeta. intros (d & Hn & Hf).
  destruct (Viewer_frameObject_writes (three := orbit_three) (mesh 1)
              sample_camera sample_controls) as (Hn' & Hf' & _).
  cbv zeta in Hn', Hf'. rewrite Hn' in Hn. rewrite Hf' in Hf.
  pose proof sample_diagonal. lra.
Qed.















Lemma frameDist_strictly_increasing_witness :
  0 < 60 /\ 60 < 180 /\
  frameDist 1 (deg2rad 60) 1.25 < frameDist 2 (deg2rad 60) 1.25 /\
  frameDist 2 (deg2rad 60) 1 < frameDist 2 (deg2rad 60) 1.25.
Proof.
  assert (Hlo : 0 < 60) by lra.
  assert (Hhi : 60 < 180) by lra.
  destruct (frameDist_strictly_increasing 60 Hlo Hhi) as [Hs Hp].
  split; [exact Hlo |]. split; [exact Hhi |]. split.
  - apply Hs; lra.
  - apply Hp; lra.
Defined.

(** The root the examples load, after the first traversal. *)
Lemma sample_root_marked :
  traverse ModelManager.mark_mesh (group 1 [mesh 2; group 3 [mesh 4]]) =
  let lit n :=
    Node {| id := n; isMesh := true; castShadow := true; receiveShadow := true;
            material :=
              Some {| mat_map := Some {| isTexture := true;
                                         colorSpace := SRGBColorSpace |};
                      mat_envMap := Some env_null |};
            scale := one |} [] in
  group 1 [lit 2%nat; group 3 [lit 4%nat]].
Proof. reflexivity. Qed.

(** C1 fails as it is stated: the glTF loads, the environment map does not,
    and [load] does not resolve. *)
Lemma load_env_failure_does_not_resolve :
  let run := ModelManager.load (three := cube_three) "model.glb" None
               (Some "sky.hdr") [onLoad sample_gltf] (rgbe_failed "404") in
  ModelManager.await_gltf None [onLoad sample_gltf] = Fulfilled sample_gltf /\
  ModelManager.choose_root sample_gltf = Some (group 1 [mesh 2; group 3 [mesh 4]]) /\
  ~ (exists asset, ModelManager.result run = Fulfilled asset).
Proof.
  cbv zeta. split; [reflexivity |]. split; [reflexivity |].
  intros [asset H]. discriminate H.
Qed.

Lemma load_env_failure_rejects_witness :
  let run := ModelManager.load (three := cube_three) "model.glb" None
               (Some "sky.hdr") [onLoad sample_gltf] (rgbe_failed "404") in
  truthy_string (Some "sky.hdr") = true /\
  ModelManager.result run = Rejected (RGBELoaderError "404") /\
  exists r, ModelManager.root_after run = Some r /\
            envMap_slots r = envMap_slots (group 1 [mesh 2; group 3 [mesh 4]]).
Proof.
  pose proof (load_env_failure_rejects (three := cube_three) "model.glb" None
                (Some "sky.hdr") [onLoad sample_gltf] "404" sample_gltf
                (group 1 [mesh 2; group 3 [mesh 4]]) eq_refl eq_refl eq_refl) as H.
  cbv zeta in *. destruct H as (Hr & _ & _ & He).
  split; [reflexivity |]. split; [exact Hr | exact He].
Defined.

(** C2 at a signal that is aborted before [load] is called: the listener is
    never run, so [load] resolves to an asset when GLTFLoader succeeds, and is
    rejected with GLTFLoader's error, not the abort error, when it fails. *)
Theorem load_on_aborted_signal :
  let s := {| aborted := true; listeners := [] |} in
  (exists asset,
      ModelManager.result
        (ModelManager.load (three := cube_three) "model.glb" (Some s) None
           [onLoad sample_gltf] rgbe_silent) = Fulfilled asset) /\
  ModelManager.result
    (ModelManager.load (three := cube_three) "model.glb" (Some s) None
       [onError "404"] rgbe_silent) = Rejected (GLTFLoaderError "404") /\
  is_LoadFailed (GLTFLoaderError "404") /\
  ~ is_Cancelled (GLTFLoaderError "404").
Proof.
  cbv zeta. split; [eexists; reflexivity |]. split; [reflexivity |].
  split; [now exists "404"%string | unfold is_Cancelled; discriminate].
Qed.

Lemma load_marks_every_mesh_witness :
  let run := ModelManager.load (three := cube_three) "model.glb" None None
               [onLoad sample_gltf] rgbe_silent in
  exists asset,
    ModelManager.result run = Fulfilled asset /\
    Forall2 marked_by_load (nodes (group 1 [mesh 2; group 3 [mesh 4]]))
      (nodes (ModelManager.root asset)) /\
    Forall shadowed_sRGB (nodes (ModelManager.root asset)).
Proof.
  cbv zeta. eexists. split; [reflexivity |].
  destruct (load_marks_every_mesh (three := cube_three) "model.glb" None None
              [onLoad sample_gltf] rgbe_silent _ eq_refl)
    as (g & root0 & Hg & Hroot & Hrel & Hall).
  injection Hg as <-. injection Hroot as <-.
  split; [exact Hrel | exact Hall].
Defined.

(** C10: the code departs from it at the name ["toString"], which is not a
    key of [VARIANTS]: [VARIANTS["toString"]] is the function every object
    inherits, the guard [if (!cfg) return] lets it through, the current
    model leaves the scene, [currentModel] is set to [null] and the loader
    is called (with [undefined] for a URL). *)
Lemma setVariant_inherited_name_has_effects :
  let a1 := fst (Index.setVariant (three := cube_three) "toString"
                   Viewer.loader_silent sample_app) in
  let a2 := fst (Part000.setVariant (three := cube_three) "toString"
                   Viewer.loader_silent sample_app) in
  (Index.VARIANTS !! "toString" = None) /\
  (Part000.VARIANTS !! "toString" = None) /\
  Viewer.scene_children sample_app = [group 10 []; mesh 11] /\
  Viewer.currentModel sample_app = Some (mesh 11) /\
  Viewer.loader_calls sample_app = [] /\
  Viewer.scene_children a1 = [group 10 []] /\
  Viewer.currentModel a1 = None /\
  Viewer.loader_calls a1 = [None] /\
  Viewer.scene_children a2 = [group 10 []] /\
  Viewer.currentModel a2 = None /\
  Viewer.loader_calls a2 = [None].
Proof.
  cbv zeta.
  split; [vm_compute; reflexivity |]. split; [vm_compute; reflexivity |].
  repeat split; reflexivity.
Qed.


(** * Further properties of the code *)

(** ** [ModelManager.load]: order of events *)

Section LoadEvents.
Context {three : Three}.
Import ModelManager.

Lemma await_gltf_first_callback (signal : option AbortSignal) (ev : LoadEvent)
    (rest : list LoadEvent) :
  backend_event ev = true ->
  await_gltf signal (ev :: rest) = await_gltf signal [ev].
Proof.
  intros Hev. unfold await_gltf. cbn [fold_left].
  apply deliver_settled.
  destruct ev; try discriminate; cbn [deliver promise];
    destruct signal; cbn [promise resolve reject]; discriminate.
Qed.

Lemma await_gltf_onLoad (signal : option AbortSignal) (g : GLTF)
    (rest : list LoadEvent) :
  await_gltf signal (onLoad g :: rest) = Fulfilled g.
Proof.
  rewrite await_gltf_first_callback by reflexivity.
  unfold await_gltf. destruct signal; reflexivity.
Qed.

Lemma await_gltf_onError (signal : option AbortSignal) (e : string)
    (rest : list LoadEvent) :
  await_gltf signal (onError e :: rest) = Rejected (GLTFLoaderError e).
Proof.
  rewrite await_gltf_first_callback by reflexivity.
  unfold await_gltf. destruct signal; reflexivity.
Qed.

(** X1: when the caller's signal is not aborted at the call and the abort
    comes before any callback of GLTFLoader, [load] is rejected with the
    abort error whatever arrives afterwards, no root is chosen or written,
    and no texture is disposed of. *)
Theorem load_cancelled_before_callbacks (url : string) (s : AbortSignal)
    (envMapHDR : option string) (rest : list LoadEvent) (rgbe : RGBEOutcome) :
  aborted s = false ->
  let run := load url (Some s) envMapHDR (abort :: rest) rgbe in
  result run = Rejected AbortError /\ root_after run = None /\ disposed run = [].
Proof.
  intros Hs. cbv zeta.
  pose proof (load_abort_first url s envMapHDR rest rgbe Hs) as Hr.
  split; [exact Hr |].
  unfold load in *.
  destruct (await_gltf (Some s) (abort :: rest)) as [| g | e].
  - split; reflexivity.
  - exfalso. destruct (choose_root g); [| discriminate Hr].
    destruct (truthy_string envMapHDR); [destruct rgbe |]; discriminate Hr.
  - split; reflexivity.
Qed.

(** X2: the first callback of GLTFLoader decides: after [onLoad] the run is
    the one with that event alone, and after [onError] [load] is rejected
    with the loader's value as it came; a later abort or callback changes
    nothing, whatever the signal. *)
Theorem load_first_callback_decides (url : string) (signal : option AbortSignal)
    (envMapHDR : option string) (rest : list LoadEvent) (rgbe : RGBEOutcome) :
  (forall g, load url signal envMapHDR (onLoad g :: rest) rgbe =
             load url signal envMapHDR [onLoad g] rgbe) /\
  (forall e, load url signal envMapHDR (onError e :: rest) rgbe =
             {| result := Rejected (GLTFLoaderError e); root_after := None;
                disposed := [] |}).
Proof.
  split.
  - intros g. unfold load. now rewrite !await_gltf_onLoad.
  - intros e. unfold load. now rewrite await_gltf_onError.
Qed.

(** X3: a signal that is aborted already when [load] is called has no part
    in the run: it is the run without a signal on the callbacks of
    GLTFLoader alone. *)
Theorem load_ignores_aborted_signal (url : string) (s : AbortSignal)
    (envMapHDR : option string) (events : list LoadEvent) (rgbe : RGBEOutcome) :
  aborted s = true ->
  load url (Some s) envMapHDR events rgbe =
  load url None envMapHDR (List.filter backend_event events) rgbe.
Proof.
  intros Hs. unfold load. now rewrite (await_gltf_on_aborted_signal s events Hs).
Qed.

(** X4: a glTF with no [scene] and no first entry in [scenes] makes [load]
    fail with the [TypeError] of [root.traverse], with or without an
    environment map; nothing is written. *)
Theorem load_without_scene (url : string) (signal : option AbortSignal)
    (envMapHDR : option string) (g : GLTF) (rest : list LoadEvent)
    (rgbe : RGBEOutcome) :
  gltf_scene g = None ->
  gltf_scenes g = None \/ gltf_scenes g = Some [] ->
  load url signal envMapHDR (onLoad g :: rest) rgbe =
  {| result := Rejected TypeError; root_after := None; disposed := [] |}.
Proof.
  intros Hscene Hscenes. unfold load. rewrite await_gltf_onLoad.
  unfold choose_root. rewrite Hscene.
  destruct Hscenes as [-> | ->]; reflexivity.
Qed.

(** X5: when [envMapHDR] is missing, [null] or the empty string, and the
    glTF has a root, [load] resolves without asking RGBELoader for anything:
    the asset is the same for every outcome of RGBELoader, its root is the
    marked root, every [envMap] slot is as it was and no texture is disposed
    of. *)
Theorem load_without_environment (url : string) (signal : option AbortSignal)
    (envMapHDR : option string) (g : GLTF) (root0 : Object3D)
    (rest : list LoadEvent) (rgbe : RGBEOutcome) :
  truthy_string envMapHDR = false ->
  choose_root g = Some root0 ->
  let run := load url signal envMapHDR (onLoad g :: rest) rgbe in
  result run = Fulfilled (make_asset g (traverse mark_mesh root0)) /\
  envMap_slots (traverse mark_mesh root0) = envMap_slots root0 /\
  disposed run = [].
Proof.
  intros Henv Hroot. cbv zeta. unfold load.
  rewrite await_gltf_onLoad, Hroot, Henv. cbn [result disposed].
  split; [reflexivity |]. split; [apply traverse_mark_mesh_envMap_slots | reflexivity].
Qed.

End LoadEvents.

(** ** [ModelManager.load]: what the traversals write *)

Section LoadWrites.
Context {three : Three}.
Import ModelManager.

(** The two callbacks of [load], one after the other. *)
Lemma env_slot_of_marked (env : nat) (d : NodeData) :
  option_map mat_envMap (material (apply_env env (mark_mesh d))) =
  env_slot_after env d.
Proof.
  unfold env_slot_after, apply_env, mark_mesh.
  destruct d as [i [|] c r [[[t |] [e |]] |] k]; cbn; try reflexivity;
    destruct (isTexture t); reflexivity.
Qed.

Lemma mark_mesh_kept (d : NodeData) : kept_by_load d (mark_mesh d).
Proof.
  unfold kept_by_load, mark_mesh.
  destruct d as [i [|] c r [[[t |] e] |] k]; cbn;
    try destruct (isTexture t); repeat split; intros; try reflexivity;
    try discriminate; try assumption.
Qed.

Lemma apply_env_mark_mesh_kept (env : nat) (d : NodeData) :
  kept_by_load d (apply_env env (mark_mesh d)).
Proof.
  unfold kept_by_load, apply_env, mark_mesh.
  destruct d as [i [|] c r [[[t |] [e |]] |] k]; cbn;
    try destruct (isTexture t); repeat split; intros; try reflexivity;
    try discriminate; try assumption.
Qed.

Lemma mark_mesh_idempotent (d : NodeData) : mark_mesh (mark_mesh d) = mark_mesh d.
Proof.
  unfold mark_mesh.
  destruct d as [i [|] c r [[[t |] e] |] k]; cbn; try reflexivity.
  destruct (isTexture t) eqn:Ht; cbn; now rewrite ?Ht.
Qed.

(** X6: when the environment map loads, [load] resolves; a mesh whose
    material has an [envMap] property holds the environment texture made from
    the HDR texture, every other slot (objects that are not meshes, materials
    without the property) is as it was, and the HDR texture, and it alone, is
    disposed of. *)
Theorem load_applies_environment (url : string) (signal : option AbortSignal)
    (envMapHDR : option string) (g : GLTF) (root0 : Object3D)
    (rest : list LoadEvent) (tex : nat) :
  truthy_string envMapHDR = true ->
  choose_root g = Some root0 ->
  let run := load url signal envMapHDR (onLoad g :: rest) (rgbe_loaded tex) in
  exists asset,
    result run = Fulfilled asset /\
    root_after run = Some (root asset) /\
    envMap_slots (root asset) =
      List.map (env_slot_after (PMREM_fromEquirectangular_texture tex)) (nodes root0) /\
    disposed run = [tex].
Proof.
  intros Henv Hroot. cbv zeta. unfold load.
  rewrite await_gltf_onLoad, Hroot, Henv. cbn [result root_after disposed].
  eexists. split; [reflexivity |]. cbn [root make_asset].
  split; [reflexivity |]. split; [| reflexivity].
  unfold envMap_slots. rewrite !nodes_traverse, !List.map_map.
  apply List.map_ext. intros d. apply env_slot_of_marked.
Qed.

(** X7: [load] keeps the tree: when it resolves, the objects of the asset's
    root are, in visiting order, those of the root GLTFLoader gave, each with
    its identity, kind and scale, with a material exactly when it had one,
    and unchanged altogether when it is not a mesh. *)
Theorem load_keeps_tree (url : string) (signal : option AbortSignal)
    (envMapHDR : option string) (events : list LoadEvent) (rgbe : RGBEOutcome)
    (g : GLTF) (root0 : Object3D) (asset : Asset) :
  await_gltf signal events = Fulfilled g ->
  choose_root g = Some root0 ->
  result (load url signal envMapHDR events rgbe) = Fulfilled asset ->
  Forall2 kept_by_load (nodes root0) (nodes (root asset)).
Proof.
  intros Hg Hroot H. unfold load in H. rewrite Hg, Hroot in H.
  destruct (truthy_string envMapHDR).
  - destruct rgbe as [tex | e |]; try discriminate.
    cbn [result] in H. injection H as <-. cbn [root make_asset].
    rewrite traverse_traverse, nodes_traverse.
    apply Forall2_map_same. intros d. apply apply_env_mark_mesh_kept.
  - cbn [result] in H. injection H as <-. cbn [root make_asset].
    rewrite nodes_traverse. apply Forall2_map_same. apply mark_mesh_kept.
Qed.

Lemma mark_mesh_after_apply_env (env : nat) (d : NodeData) :
  mark_mesh (apply_env env (mark_mesh d)) = apply_env env (mark_mesh d).
Proof.
  unfold apply_env, mark_mesh.
  destruct d as [i [|] c r [[[t |] [e |]] |] k]; cbn; try reflexivity;
    destruct (isTexture t) eqn:Ht; cbn; now rewrite ?Ht.
Qed.

Lemma apply_env_same_but_envMap (env : nat) (d : NodeData) :
  same_but_envMap d (apply_env env d).
Proof.
  unfold same_but_envMap, apply_env.
  destruct d as [i [|] c r [[t [e |]] |] k]; cbn; repeat split; reflexivity.
Qed.

Lemma env_slot_of_apply_env (env : nat) (d : NodeData) :
  option_map mat_envMap (material (apply_env env d)) = env_slot_after env d.
Proof.
  unfold env_slot_after, apply_env.
  destruct d as [i [|] c r [[t [e |]] |] k]; reflexivity.
Qed.

Lemma same_but_envMap_refl (l : list NodeData) : Forall2 same_but_envMap l l.
Proof.
  induction l as [| d l IH]; constructor; [| exact IH].
  unfold same_but_envMap. repeat split; reflexivity.
Qed.

Lemma load_root_marked (url : string) (signal : option AbortSignal)
    (envMapHDR : option string) (events : list LoadEvent) (rgbe : RGBEOutcome)
    (asset : Asset) :
  result (load url signal envMapHDR events rgbe) = Fulfilled asset ->
  traverse mark_mesh (root asset) = root asset.
Proof.
  unfold load. intros H.
  destruct (await_gltf signal events) as [| g | e]; try discriminate.
  destruct (choose_root g) as [root0 |]; try discriminate.
  destruct (truthy_string envMapHDR).
  - destruct rgbe as [tex | e |]; try discriminate.
    cbn [result] in H. injection H as <-. cbn [root make_asset].
    rewrite !traverse_traverse. apply traverse_ext. intros d.
    apply mark_mesh_after_apply_env.
  - cbn [result] in H. injection H as <-. cbn [root make_asset].
    rewrite traverse_traverse. apply traverse_ext. apply mark_mesh_idempotent.
Qed.

(** X8: the marking of [load] is idempotent: a root that one resolved run
    left, handed to a second run, comes out with every object as it went in
    but for its [envMap] slot, whatever the environment map of the second
    run and the texture RGBELoader gives it; and exactly as it went in when
    the second run has no environment map.  When the second run has one and
    RGBELoader gives it a texture, the run resolves and the slots hold the
    environment texture made from that texture, on the meshes whose
    material has the property: another one than the first run made from
    another texture. *)
Theorem load_again_same_root (url : string) (signal : option AbortSignal)
    (envMapHDR : option string) (events : list LoadEvent) (rgbe : RGBEOutcome)
    (asset : Asset) (url' : string) (signal' : option AbortSignal)
    (envMapHDR' : option string) (g' : GLTF) (rest : list LoadEvent)
    (rgbe' : RGBEOutcome) :
  result (load url signal envMapHDR events rgbe) = Fulfilled asset ->
  choose_root g' = Some (root asset) ->
  let run' := load url' signal' envMapHDR' (onLoad g' :: rest) rgbe' in
  (forall asset',
     result run' = Fulfilled asset' ->
     Forall2 same_but_envMap (nodes (root asset)) (nodes (root asset'))) /\
  (truthy_string envMapHDR' = false ->
   exists asset', result run' = Fulfilled asset' /\ root asset' = root asset) /\
  (forall tex',
     truthy_string envMapHDR' = true ->
     rgbe' = rgbe_loaded tex' ->
     exists asset',
       result run' = Fulfilled asset' /\
       envMap_slots (root asset') =
         List.map (env_slot_after (PMREM_fromEquirectangular_texture tex'))
           (nodes (root asset)) /\
       (forall tex,
          rgbe = rgbe_loaded tex -> tex <> tex' ->
          PMREM_fromEquirectangular_texture tex' <>
          PMREM_fromEquirectangular_texture tex)).
Proof.
  intros H Hroot'. cbv zeta.
  pose proof (load_root_marked _ _ _ _ _ _ H) as Hfix.
  unfold load. rewrite await_gltf_onLoad, Hroot', Hfix. split; [| split].
  - intros asset' H'. destruct (truthy_string envMapHDR').
    + destruct rgbe' as [tex | e |]; try discriminate.
      cbn [result] in H'. injection H' as <-. cbn [root make_asset].
      rewrite nodes_traverse. apply Forall2_map_same.
      apply apply_env_same_but_envMap.
    + cbn [result] in H'. injection H' as <-. cbn [root make_asset].
      apply same_but_envMap_refl.
  - intros ->. cbn [result]. eexists. split; reflexivity.
  - intros tex' -> ->. cbn [result]. eexists. split; [reflexivity |].
    cbn [root make_asset]. split.
    + unfold envMap_slots. rewrite nodes_traverse, List.map_map.
      apply List.map_ext. intros d. apply env_slot_of_apply_env.
    + intros tex _ Hne Heq. apply Hne. symmetry.
      now apply PMREM_fromEquirectangular_texture_fresh.
Qed.

End LoadWrites.

(** ** [frameObject]: where the camera ends up *)

Section FrameObjectMore.
Context {three : Three}.
Import ModelManager.

(** X9: when [ModelManager.frameObject] returns, the camera is at distance
    [|d|] from the controller's target, [d] being the distance it
    computed. *)
Theorem frameObject_camera_distance (object : Object3D) (camera : PerspectiveCamera)
    (controls : OrbitControls) (padding : R) :
  let s := frameObject object camera controls padding in
  distance_between (position (fst s)) (target (snd s)) =
  Rabs (frameObject_dist object camera padding).
Proof.
  cbv zeta.
  destruct (frameObject_writes object camera controls padding)
    as (_ & _ & _ & Ht & Hd).
  cbv zeta in Ht, Hd. now rewrite Ht.
Qed.


(** X11: for a bounding box with a positive extent, a positive padding and
    a field of view between 0 and 180 degrees, the distance is positive, and
    the clip planes satisfy [0 < near < far] with [far = 10000 * near]. *)
Theorem frameObject_positive_distance (object : Object3D)
    (camera : PerspectiveCamera) (controls : OrbitControls) (padding : R) :
  let sz := Box3_getSize (Box3_setFromObject object) in
  0 < vx sz \/ 0 < vy sz \/ 0 < vz sz ->
  0 < padding ->
  0 < fov camera -> fov camera < 180 ->
  let s := frameObject object camera controls padding in
  0 < frameObject_dist object camera padding /\
  0 < near (fst s) /\ near (fst s) < far (fst s) /\
  far (fst s) = 10000 * near (fst s).
Proof.
  cbv zeta. intros Hsz Hp Hlo Hhi.
  assert (Hd : 0 < frameObject_dist object camera padding).
  { unfold frameObject_dist, frameDist.
    pose proof (tan_half_fov_pos (fov camera) Hlo Hhi) as Ht.
    destruct (Math_max3_upper_bound
                (vx (Box3_getSize (Box3_setFromObject object)))
                (vy (Box3_getSize (Box3_setFromObject object)))
                (vz (Box3_getSize (Box3_setFromObject object)))) as (Hx & Hy & Hz).
    apply Rmult_lt_0_compat; [| exact Hp].
    apply Rdiv_lt_0_compat; [| lra].
    destruct Hsz as [H | [H | H]]; lra. }
  destruct (frameObject_writes object camera controls padding)
    as (Hn & Hf & _).
  cbv zeta in Hn, Hf. rewrite Hn, Hf.
  split; [exact Hd |]. repeat split; lra.
Qed.

End FrameObjectMore.

(** X12: for a positive size and a positive padding, the framing distance is
    strictly decreasing in the field of view between 0 and 180 degrees: a
    wider lens puts the camera closer. *)
Theorem frameDist_decreasing_in_fov (s padding fov1 fov2 : R) :
  0 < s -> 0 < padding ->
  0 < fov1 -> fov1 < fov2 -> fov2 < 180 ->
  frameDist s (deg2rad fov2) padding < frameDist s (deg2rad fov1) padding.
Proof.
  intros Hs Hp H1 H12 H2.
  assert (Ht1 : 0 < tan (deg2rad fov1 / 2)) by (apply tan_half_fov_pos; lra).
  assert (Ht : tan (deg2rad fov1 / 2) < tan (deg2rad fov2 / 2)).
  { destruct (half_fov_in_range fov1) as [Ha Hb]; [lra | lra |].
    destruct (half_fov_in_range fov2) as [Hc Hd]; [lra | lra |].
    pose proof PI_RGT_0 as Hpi.
    apply tan_increasing; [lra | unfold deg2rad in *; nra | lra]. }
  unfold frameDist, Rdiv.
  apply Rmult_lt_compat_r; [exact Hp |].
  apply Rmult_lt_compat_l; [exact Hs |].
  apply Rinv_lt_contravar; [nra | lra].
Qed.

(** ** [frameObject] of the viewer scripts *)

Section ViewerFrameObjectMore.
Context {three : Three}.





(** X14: with a field of view between 0 and 180 degrees, the scripts'
    [frameObject] puts the camera at 1.3 times [size / (2 * tan(fov / 2))]
    from the target, [size] being the length of the diagonal of the bounding
    box; near is [size / 100] and far [size * 10], so [0 < near < far] and
    [far = 1000 * near] unless the box has size zero, and then both planes
    are 0 and the camera is on the target. *)
Theorem Viewer_frameObject_framing (object : Object3D) (cam : PerspectiveCamera)
    (controls : OrbitControls) :
  0 < fov cam -> fov cam < 180 ->
  let extent := Box3_getSize (Box3_setFromObject object) in
  let size := Vector3Methods.length extent in
  let s := Viewer.frameObject object cam controls in
  distance_between (position (fst s)) (target (snd s)) =
    (size / (2 * tan (deg2rad (fov cam) / 2))) * 1.3 /\
  (extent <> vec3 0 0 0 ->
   0 < near (fst s) /\ near (fst s) < far (fst s) /\ far (fst s) = 1000 * near (fst s)) /\
  (extent = vec3 0 0 0 ->
   near (fst s) = 0 /\ far (fst s) = 0 /\ position (fst s) = target (snd s)).
Proof.
  intros Hlo Hhi. cbv zeta.
  destruct (Viewer_frameObject_writes object cam controls)
    as (Hn & Hr & _ & Ht & Hd).
  cbv zeta in Hn, Hr, Ht, Hd.
  pose proof (length_nonneg (Box3_getSize (Box3_setFromObject object))) as Hlen.
  pose proof (tan_half_fov_pos (fov cam) Hlo Hhi) as Htan.
  rewrite half_angle_of_script in Hd.
  split; [| split].
  - rewrite Ht, Hd.
    apply Rabs_pos_eq.
    apply Rmult_le_pos; [| lra].
    apply Rmult_le_pos; [exact Hlen |].
    left. apply Rinv_0_lt_compat. lra.
  - intros Hne. rewrite Hn, Hr.
    assert (Vector3Methods.length (Box3_getSize (Box3_setFromObject object)) <> 0)
      by (intros H0; apply Hne, length_zero_iff, H0).
    repeat split; lra.
  - intros H0. apply length_zero_iff in H0. rewrite Hn, Hr, Ht, H0.
    split; [lra |]. split; [lra |].
    apply distance_zero. rewrite Hd, H0.
    replace (0 / (2 * tan (deg2rad (fov cam) / 2)) * 1.3) with 0
      by (unfold Rdiv; ring).
    apply Rabs_R0.
Qed.

(** X15: for the same object and a field of view between 0 and 180 degrees,
    the scripts' [frameObject] never puts the camera closer to the target
    than [ModelManager.frameObject] does with its default padding. *)
Theorem Viewer_frameObject_not_closer (object : Object3D) (cam : PerspectiveCamera)
    (controls : OrbitControls) :
  0 < fov cam -> fov cam < 180 ->
  let m := ModelManager.frameObject object cam controls ModelManager.default_padding in
  let v := Viewer.frameObject object cam controls in
  distance_between (position (fst m)) (target (snd m)) <=
  distance_between (position (fst v)) (target (snd v)).
Proof.
  intros Hlo Hhi. cbv zeta.
  destruct (Viewer_frameObject_writes object cam controls)
    as (_ & _ & _ & Ht & Hd).
  destruct (frameObject_writes object cam controls ModelManager.default_padding)
    as (_ & _ & _ & Ht' & Hd').
  cbv zeta in Ht, Hd, Ht', Hd'.
  rewrite Ht, Hd, Ht', Hd'.
  rewrite half_angle_of_script.
  pose proof (tan_half_fov_pos (fov cam) Hlo Hhi) as Htan.
  pose proof (Math_max3_le_length (Box3_getSize (Box3_setFromObject object))) as Hmax.
  pose proof (length_nonneg (Box3_getSize (Box3_setFromObject object))) as Hlen.
  unfold ModelManager.frameObject_dist, frameDist, ModelManager.default_padding.
  set (t := tan (deg2rad (fov cam) / 2)) in *.
  unfold Rdiv.
  set (k := / (2 * t)).
  assert (Hk : 0 < k) by (apply Rinv_0_lt_compat; lra).
  set (b := Vector3Methods.length _) in *.
  set (m := Math_max3 _ _ _) in *.
  rewrite !Rabs_mult, (Rabs_pos_eq k), (Rabs_pos_eq 1.25), (Rabs_pos_eq b),
    (Rabs_pos_eq 1.3) by lra.
  assert (0 <= Rabs m) by apply Rabs_pos.
  assert (Rabs m * k <= b * k) by (apply Rmult_le_compat_r; lra).
  assert (0 <= b * k) by nra.
  nra.
Qed.

End ViewerFrameObjectMore.

(** ** The children of the scene *)

Lemma same_object_iff (a b : Object3D) :
  Viewer.same_object a b = true <-> id (data_of a) = id (data_of b).
Proof. unfold Viewer.same_object. apply Nat.eqb_eq. Qed.

Lemma scene_remove_keeps (cs : list Object3D) (o : Object3D) (n : nat) :
  In n (ids_of cs) -> n <> id (data_of o) ->
  In n (ids_of (Viewer.scene_remove cs o)).
Proof.
  induction cs as [| c cs IH]; cbn [Viewer.scene_remove ids_of List.map In];
    [tauto |].
  intros [Hc | Hin] Hn.
  - destruct (Viewer.same_object c o) eqn:Hs.
    + apply same_object_iff in Hs. congruence.
    + left. exact Hc.
  - destruct (Viewer.same_object c o); [exact Hin |].
    right. now apply IH.
Qed.

Lemma scene_remove_subset (cs : list Object3D) (o : Object3D) (n : nat) :
  In n (ids_of (Viewer.scene_remove cs o)) -> In n (ids_of cs).
Proof.
  induction cs as [| c cs IH]; cbn [Viewer.scene_remove ids_of List.map In];
    [tauto |].
  destruct (Viewer.same_object c o); cbn [ids_of List.map In]; [tauto |].
  intros [H | H]; [now left | right; now apply IH].
Qed.

Lemma scene_remove_NoDup (cs : list Object3D) (o : Object3D) :
  List.NoDup (ids_of cs) ->
  List.NoDup (ids_of (Viewer.scene_remove cs o)) /\
  ~ In (id (data_of o)) (ids_of (Viewer.scene_remove cs o)).
Proof.
  induction cs as [| c cs IH]; cbn [Viewer.scene_remove ids_of List.map].
  - intros _. split; [constructor | intros []].
  - intros Hnd. apply List.NoDup_cons_iff in Hnd. destruct Hnd as [Hc Hnd].
    destruct (Viewer.same_object c o) eqn:Hs.
    + apply same_object_iff in Hs. split; [exact Hnd |]. now rewrite <- Hs.
    + destruct (IH Hnd) as [IH1 IH2]. cbn [ids_of List.map]. split.
      * apply List.NoDup_cons; [| exact IH1].
        intros Hin. apply Hc. now apply scene_remove_subset in Hin.
      * cbn [In]. intros [Heq | Hin]; [| now apply IH2].
        assert (Viewer.same_object c o = true) by now apply same_object_iff.
        congruence.
Qed.



Lemma scene_add_NoDup (cs : list Object3D) (o : Object3D) :
  List.NoDup (ids_of cs) -> List.NoDup (ids_of (Viewer.scene_add cs o)).
Proof.
  intros Hnd. unfold Viewer.scene_add, ids_of. rewrite List.map_app.
  destruct (scene_remove_NoDup cs o Hnd) as [H1 H2].
  apply List.NoDup_app; repeat split.
  - exact H1.
  - cbn. apply List.NoDup_cons; [intros [] | constructor].
  - intros n Hin [<- | []]. now apply H2.
Qed.

(** ** [setVariant]: hits, misses and failures *)

Section SetVariantMore.
Context {three : Three}.

Lemma with_scene_same (a : Viewer.App) :
  Viewer.currentModel a = None ->
  Viewer.with_scene a (Viewer.scene_children a) None = a.
Proof. destruct a. cbn. now intros ->. Qed.

(** [setVariant] past its guard. *)
Lemma setVariant_with_known (V : gmap string Viewer.Variant)
    (finish : Viewer.Cfg -> Object3D -> Viewer.App -> Viewer.App)
    (name : string) (response : Viewer.LoaderOutcome) (a : Viewer.App)
    (cfg : Viewer.Cfg) :
  Viewer.get_property V name = Some cfg ->
  Viewer.setVariant_with V finish name response a =
  let a1 := Viewer.with_scene a (without_current a) None in
  let show (a : Viewer.App) (model : Object3D) :=
    (finish cfg model
       (Viewer.with_view
          (Viewer.with_scene a (Viewer.scene_add (Viewer.scene_children a) model)
             (Some model))
          (Viewer.frameObject model (Viewer.camera a) (Viewer.controls a))),
     @Fulfilled unit tt) in
  match Viewer.cache a !! name with
  | Some model => show a1 model
  | None =>
      let a2 := Viewer.with_loader_call a1 (Viewer.cfg_url cfg) in
      match response with
      | Viewer.loader_silent => (a2, Pending)
      | Viewer.loader_failed e => (a2, Rejected (GLTFLoaderError e))
      | Viewer.loader_loaded model =>
          let model :=
            match Viewer.needs_scaling cfg with
            | Some k => Viewer.scale_setScalar model k
            | None => model
            end in
          show (Viewer.with_cache a2 (<[name := model]> (Viewer.cache a2))) model
      end
  end.
Proof.
  intros Hcfg.
  unfold Viewer.setVariant_with, Viewer.setVariant_call, Viewer.setVariant_resume,
    Viewer.show, without_current.
  rewrite Hcfg.
  destruct (Viewer.currentModel a) as [cur |] eqn:Hcur.
  - cbv zeta. cbn [Viewer.cache Viewer.with_scene].
    destruct (Viewer.cache a !! name); [reflexivity |].
    destruct response; reflexivity.
  - rewrite (with_scene_same a Hcur). cbv zeta.
    destruct (Viewer.cache a !! name); [reflexivity |].
    destruct response; reflexivity.
Qed.

Lemma variants_scale_1 (l : list (string * Viewer.Variant)) (name : string)
    (v : Viewer.Variant) :
  Forall (fun kv => Viewer.cfg_scale (snd kv) = 1) l ->
  (list_to_map l : gmap string Viewer.Variant) !! name = Some v ->
  Viewer.cfg_scale v = 1.
Proof.
  intros Hall Hv. apply elem_of_list_to_map_2 in Hv.
  apply list_elem_of_In in Hv.
  rewrite List.Forall_forall in Hall. exact (Hall _ Hv).
Qed.

Lemma needs_scaling_1 (v : Viewer.Variant) :
  Viewer.cfg_scale v = 1 -> Viewer.needs_scaling (Viewer.cfg_own v) = None.
Proof.
  intros Hv. unfold Viewer.needs_scaling. cbn [Viewer.cfg_scale_of].
  destruct (Req_dec_T _ 0); [reflexivity |].
  destruct (Req_dec_T _ 1); [reflexivity | contradiction].
Qed.

Lemma Index_variant (name : string) (v : Viewer.Variant) :
  Index.VARIANTS !! name = Some v ->
  Viewer.get_property Index.VARIANTS name = Some (Viewer.cfg_own v) /\
  Viewer.needs_scaling (Viewer.cfg_own v) = None.
Proof.
  intros Hv. split; [unfold Viewer.get_property; now rewrite Hv |].
  apply needs_scaling_1. revert Hv. unfold Index.VARIANTS.
  apply variants_scale_1. repeat constructor.
Qed.

Lemma Part000_variant (name : string) (v : Viewer.Variant) :
  Part000.VARIANTS !! name = Some v ->
  Viewer.get_property Part000.VARIANTS name = Some (Viewer.cfg_own v) /\
  Viewer.needs_scaling (Viewer.cfg_own v) = None.
Proof.
  intros Hv. split; [unfold Viewer.get_property; now rewrite Hv |].
  apply needs_scaling_1. revert Hv. unfold Part000.VARIANTS.
  apply variants_scale_1. repeat constructor.
Qed.

Lemma Index_finish_local : finish_local (fun _ _ a => a).
Proof. intros cfg model a. repeat split. Qed.

Lemma Part000_finish_local :
  finish_local (fun cfg model a =>
    Viewer.setStatus (Viewer.placeGridAtModelFloor a model)
      ("Loaded: " ++ Viewer.cfg_label cfg)%string).
Proof. intros cfg model a. repeat split. Qed.

Section Generic.
Variable V : gmap string Viewer.Variant.
Variable finish : Viewer.Cfg -> Object3D -> Viewer.App -> Viewer.App.
Hypothesis Hfinish : finish_local finish.

Lemma shows_after_finish (a a1 : Viewer.App) (cfg : Viewer.Cfg) (model : Object3D) :
  Viewer.scene_children a1 = without_current a ->
  Viewer.camera a1 = Viewer.camera a ->
  Viewer.controls a1 = Viewer.controls a ->
  shows a
    (finish cfg model
       (Viewer.with_view
          (Viewer.with_scene a1 (Viewer.scene_add (Viewer.scene_children a1) model)
             (Some model))
          (Viewer.frameObject model (Viewer.camera a1) (Viewer.controls a1))))
    model (Viewer.cache a1) (Viewer.loader_calls a1).
Proof.
  intros Hch Hcam Hctl. unfold shows, view_pose.
  destruct (Hfinish cfg model
              (Viewer.with_view
                 (Viewer.with_scene a1
                    (Viewer.scene_add (Viewer.scene_children a1) model) (Some model))
                 (Viewer.frameObject model (Viewer.camera a1) (Viewer.controls a1))))
    as (H1 & H2 & H3 & H4 & H5 & H6).
  rewrite H1, H2, H3, H4, H5, H6. cbn. rewrite Hch, Hcam, Hctl.
  repeat split. apply Viewer_frameObject_fov.
Qed.

Lemma setVariant_with_hit (name : string) (response : Viewer.LoaderOutcome)
    (a : Viewer.App) (cfg : Viewer.Cfg) (model : Object3D) :
  Viewer.get_property V name = Some cfg ->
  Viewer.cache a !! name = Some model ->
  let r := Viewer.setVariant_with V finish name response a in
  snd r = Fulfilled tt /\
  shows a (fst r) model (Viewer.cache a) (Viewer.loader_calls a).
Proof.
  intros Hcfg Hhit. cbv zeta.
  rewrite (setVariant_with_known V finish name response a cfg Hcfg). cbv zeta.
  rewrite Hhit. cbn [fst snd]. split; [reflexivity |].
  exact (shows_after_finish a (Viewer.with_scene a (without_current a) None)
           cfg model eq_refl eq_refl eq_refl).
Qed.

Lemma setVariant_with_loaded (name : string) (a : Viewer.App) (cfg : Viewer.Cfg)
    (model : Object3D) :
  Viewer.get_property V name = Some cfg ->
  Viewer.needs_scaling cfg = None ->
  Viewer.cache a !! name = None ->
  let r := Viewer.setVariant_with V finish name (Viewer.loader_loaded model) a in
  snd r = Fulfilled tt /\
  shows a (fst r) model (<[name := model]> (Viewer.cache a))
    (Viewer.loader_calls a ++ [Viewer.cfg_url cfg]).
Proof.
  intros Hcfg Hscale Hmiss. cbv zeta.
  rewrite (setVariant_with_known V finish name _ a cfg Hcfg). cbv zeta.
  rewrite Hmiss, Hscale. cbn [fst snd]. split; [reflexivity |].
  exact (shows_after_finish a
           (Viewer.with_cache
              (Viewer.with_loader_call (Viewer.with_scene a (without_current a) None)
                 (Viewer.cfg_url cfg))
              (<[name := model]> (Viewer.cache a)))
           cfg model eq_refl eq_refl eq_refl).
Qed.

End Generic.
End SetVariantMore.

Section SetVariantShared.
Context {three : Three}.
Variable V : gmap string Viewer.Variant.
Variable finish : Viewer.Cfg -> Object3D -> Viewer.App -> Viewer.App.
Hypothesis Hfinish : finish_local finish.

Lemma setVariant_with_fulfilled (name : string) (response : Viewer.LoaderOutcome)
    (a : Viewer.App) (cfg : Viewer.Cfg) :
  Viewer.get_property V name = Some cfg ->
  snd (Viewer.setVariant_with V finish name response a) = Fulfilled tt ->
  exists model m calls,
    shows a (fst (Viewer.setVariant_with V finish name response a)) model m calls /\
    m !! name = Some model.
Proof.
  intros Hcfg. rewrite (setVariant_with_known V finish name response a cfg Hcfg).
  cbv zeta. destruct (Viewer.cache a !! name) as [model |] eqn:Hc.
  - intros _. exists model, (Viewer.cache a), (Viewer.loader_calls a). cbn [fst].
    split; [| exact Hc].
    exact (shows_after_finish finish Hfinish a
             (Viewer.with_scene a (without_current a) None)
             cfg model eq_refl eq_refl eq_refl).
  - destruct response as [model | e |]; cbn [fst snd]; try discriminate.
    intros _. eexists _, _, _. split.
    + exact (shows_after_finish finish Hfinish a
               (Viewer.with_cache
                  (Viewer.with_loader_call
                     (Viewer.with_scene a (without_current a) None)
                     (Viewer.cfg_url cfg)) _)
               cfg _ eq_refl eq_refl eq_refl).
    + cbn. apply lookup_insert_eq.
Qed.

Lemma setVariant_with_unanswered (name : string) (response : Viewer.LoaderOutcome)
    (a : Viewer.App) (cfg : Viewer.Cfg) :
  Viewer.get_property V name = Some cfg ->
  Viewer.cache a !! name = None ->
  (forall model, response <> Viewer.loader_loaded model) ->
  Viewer.setVariant_with V finish name response a =
  (Viewer.with_loader_call (Viewer.with_scene a (without_current a) None)
     (Viewer.cfg_url cfg),
   match response with
   | Viewer.loader_failed e => Rejected (GLTFLoaderError e)
   | _ => Pending
   end).
Proof.
  intros Hcfg Hmiss Hresp.
  rewrite (setVariant_with_known V finish name response a cfg Hcfg). cbv zeta.
  rewrite Hmiss. destruct response as [model | e |]; try reflexivity.
  now destruct (Hresp model).
Qed.

Lemma without_current_NoDup (a : Viewer.App) :
  List.NoDup (scene_ids a) -> List.NoDup (ids_of (without_current a)).
Proof.
  intros Hnd. unfold without_current.
  destruct (Viewer.currentModel a) as [cur |]; [| exact Hnd].
  now apply scene_remove_NoDup.
Qed.

Lemma shows_consistent (a a' : Viewer.App) (model : Object3D)
    (m : gmap string Object3D) (calls : list (option string)) :
  List.NoDup (scene_ids a) -> shows a a' model m calls -> scene_consistent a'.
Proof.
  intros Hnd (Hcur & Hch & _). unfold scene_consistent, scene_ids.
  rewrite Hch, Hcur. split.
  - apply scene_add_NoDup. now apply without_current_NoDup.
  - intros m' Hm'. injection Hm' as <-.
    unfold Viewer.scene_add, ids_of. rewrite List.map_app.
    apply List.in_or_app. right. now left.
Qed.

Lemma shows_keeps_others (a a' : Viewer.App) (model : Object3D)
    (m : gmap string Object3D) (calls : list (option string)) (n : nat) :
  shows a a' model m calls ->
  In n (scene_ids a) ->
  (forall cur, Viewer.currentModel a = Some cur -> id (data_of cur) <> n) ->
  In n (scene_ids a').
Proof.
  intros (_ & Hch & _) Hin Hcur. unfold scene_ids. rewrite Hch.
  assert (H1 : In n (ids_of (without_current a))).
  { unfold without_current. destruct (Viewer.currentModel a) as [cur |] eqn:Hc.
    - apply scene_remove_keeps; [exact Hin |].
      intros Heq. now apply (Hcur cur eq_refl).
    - exact Hin. }
  unfold Viewer.scene_add, ids_of. rewrite List.map_app. apply List.in_or_app.
  destruct (Nat.eq_dec n (id (data_of model))) as [-> | Hne].
  - right. now left.
  - left. now apply scene_remove_keeps.
Qed.

(** The scene after any call of [setVariant]. *)
Lemma setVariant_with_scene (name : string) (response : Viewer.LoaderOutcome)
    (a : Viewer.App) :
  let a' := fst (Viewer.setVariant_with V finish name response a) in
  (scene_consistent a -> scene_consistent a') /\
  (forall n, In n (scene_ids a) ->
             (forall cur, Viewer.currentModel a = Some cur -> id (data_of cur) <> n) ->
             In n (scene_ids a')).
Proof.
  cbv zeta.
  destruct (Viewer.get_property V name) as [cfg |] eqn:Hcfg.
  - destruct (snd (Viewer.setVariant_with V finish name response a)) eqn:Hs.
    + (* the loader has not answered *)
      assert (Hr : fst (Viewer.setVariant_with V finish name response a) =
                   Viewer.with_loader_call
                     (Viewer.with_scene a (without_current a) None)
                     (Viewer.cfg_url cfg)).
      { revert Hs. rewrite (setVariant_with_known V finish name response a cfg Hcfg).
        cbv zeta. destruct (Viewer.cache a !! name); [discriminate |].
        destruct response; try discriminate; reflexivity. }
      rewrite Hr. unfold scene_consistent, scene_ids. cbn. split.
      * intros [Hnd _]. split; [now apply without_current_NoDup | discriminate].
      * intros n Hin Hcur. unfold without_current.
        destruct (Viewer.currentModel a) as [cur |] eqn:Hc; [| exact Hin].
        apply scene_remove_keeps; [exact Hin |].
        intros Heq. now apply (Hcur cur eq_refl).
    + destruct a0.
      destruct (setVariant_with_fulfilled name response a cfg Hcfg Hs)
        as (model & m & calls & Hshows & _).
      split.
      * intros [Hnd _]. exact (shows_consistent _ _ _ _ _ Hnd Hshows).
      * intros n. exact (shows_keeps_others _ _ _ _ _ n Hshows).
    + assert (Hr : fst (Viewer.setVariant_with V finish name response a) =
                   Viewer.with_loader_call
                     (Viewer.with_scene a (without_current a) None)
                     (Viewer.cfg_url cfg)).
      { revert Hs. rewrite (setVariant_with_known V finish name response a cfg Hcfg).
        cbv zeta. destruct (Viewer.cache a !! name); [discriminate |].
        destruct response; try discriminate; reflexivity. }
      rewrite Hr. unfold scene_consistent, scene_ids. cbn. split.
      * intros [Hnd _]. split; [now apply without_current_NoDup | discriminate].
      * intros n Hin Hcur. unfold without_current.
        destruct (Viewer.currentModel a) as [cur |] eqn:Hc; [| exact Hin].
        apply scene_remove_keeps; [exact Hin |].
        intros Heq. now apply (Hcur cur eq_refl).
  - unfold Viewer.setVariant_with, Viewer.setVariant_call. rewrite Hcfg.
    cbn [fst]. split; auto.
Qed.

Lemma show_holds (cfg : Viewer.Cfg) (model : Object3D) (x : Viewer.App) :
  let a1 := Viewer.show finish cfg model x in
  Viewer.currentModel a1 = Some model /\
  Viewer.scene_children a1 = Viewer.scene_add (Viewer.scene_children x) model /\
  Viewer.cache a1 = Viewer.cache x /\
  Viewer.loader_calls a1 = Viewer.loader_calls x /\
  Viewer.camera a1 =
    fst (Viewer.frameObject model (Viewer.camera x) (Viewer.controls x)) /\
  Viewer.controls a1 =
    snd (Viewer.frameObject model (Viewer.camera x) (Viewer.controls x)).
Proof.
  cbv zeta. unfold Viewer.show.
  match goal with
  | |- context [finish cfg model ?y] =>
      destruct (Hfinish cfg model y) as (H1 & H2 & H3 & H4 & H5 & H6)
  end.
  rewrite H1, H2, H3, H4, H5, H6. cbn. repeat split.
Qed.




Lemma resume_is_show (cfg : Viewer.Cfg) (name : string) (model : Object3D)
    (b : Viewer.App) :
  Viewer.needs_scaling cfg = None ->
  Viewer.setVariant_resume finish cfg name model b =
  Viewer.show finish cfg model
    (Viewer.with_cache b (<[name := model]> (Viewer.cache b))).
Proof. intros Hs. unfold Viewer.setVariant_resume. now rewrite Hs. Qed.

Lemma resume_shown_on (cfg : Viewer.Cfg) (name : string) (model : Object3D)
    (b : Viewer.App) :
  Viewer.needs_scaling cfg = None ->
  shown_on b (Viewer.setVariant_resume finish cfg name model b) model name.
Proof.
  intros Hs. rewrite (resume_is_show cfg name model b Hs).
  destruct (show_holds cfg model
              (Viewer.with_cache b (<[name := model]> (Viewer.cache b))))
    as (Hcur & Hch & Hcache & Hcalls & Hcam & Hctl).
  cbv zeta in *. unfold shown_on, view_pose.
  rewrite Hcur, Hch, Hcache, Hcalls, Hcam, Hctl. cbn.
  repeat split; try apply Viewer_frameObject_fov;
    try (now rewrite <- surjective_pairing).
Qed.

Lemma setVariant_call_miss (name : string) (a : Viewer.App) (v : Viewer.Variant) :
  Viewer.get_property V name = Some (Viewer.cfg_own v) ->
  Viewer.cache a !! name = None ->
  Viewer.setVariant_call V finish name a =
  (waiting_state a (Viewer.url v), Viewer.awaiting (Viewer.cfg_own v)).
Proof.
  intros Hcfg Hmiss. unfold Viewer.setVariant_call, waiting_state, without_current.
  rewrite Hcfg.
  destruct (Viewer.currentModel a) as [cur |] eqn:Hcur; cbn; rewrite Hmiss.
  - reflexivity.
  - destruct a. cbn in *. now rewrite Hcur.
Qed.

End SetVariantShared.

Section SetVariantScripts.
Context {three : Three}.

Lemma Part000_finish_writes (cfg : Viewer.Cfg) (model : Object3D) (a : Viewer.App) :
  let a' := Viewer.setStatus (Viewer.placeGridAtModelFloor a model)
              ("Loaded: " ++ Viewer.cfg_label cfg)%string in
  Viewer.statusEl_textContent a' = ("Loaded: " ++ Viewer.cfg_label cfg)%string /\
  Viewer.grid_position_y a' = vy (Box3_min (Box3_setFromObject model)).
Proof. split; reflexivity. Qed.

Lemma Part000_setVariant_status (name : string) (response : Viewer.LoaderOutcome)
    (a : Viewer.App) (v : Viewer.Variant) (model : Object3D)
    (m : gmap string Object3D) (calls : list (option string)) :
  Part000.VARIANTS !! name = Some v ->
  shows a (fst (Part000.setVariant name response a)) model m calls ->
  Viewer.statusEl_textContent (fst (Part000.setVariant name response a)) =
    ("Loaded: " ++ Viewer.label v)%string /\
  Viewer.grid_position_y (fst (Part000.setVariant name response a)) =
    vy (Box3_min (Box3_setFromObject model)).
Proof.
  intros Hv. destruct (Part000_variant name v Hv) as [Hcfg Hscale].
  unfold Part000.setVariant.
  rewrite (setVariant_with_known _ _ name response a _ Hcfg). cbv zeta.
  rewrite Hscale.
  destruct (Viewer.cache a !! name) as [model0 |].
  - cbn [fst]. intros (Hcur & _). cbn in Hcur. injection Hcur as ->.
    split; reflexivity.
  - destruct response as [model0 | e |]; cbn [fst].
    + intros (Hcur & _). cbn in Hcur. injection Hcur as ->. split; reflexivity.
    + intros (Hcur & _). discriminate Hcur.
    + intros (Hcur & _). discriminate Hcur.
Qed.

(** X16: for a variant of the table whose model is in the cache,
    [setVariant] calls no loader and resolves, whatever the loader would
    have answered: the cached model is shown (current, last child of the
    scene, framed) and the cache is what it was; [part_000] also writes the
    status line and moves the grid to the floor of the model. *)
Theorem setVariant_from_cache (name : string) (v : Viewer.Variant)
    (model : Object3D) (response : Viewer.LoaderOutcome) (a : Viewer.App) :
  Viewer.cache a !! name = Some model ->
  (Index.VARIANTS !! name = Some v ->
   let r := Index.setVariant name response a in
   snd r = Fulfilled tt /\
   shows a (fst r) model (Viewer.cache a) (Viewer.loader_calls a)) /\
  (Part000.VARIANTS !! name = Some v ->
   let r := Part000.setVariant name response a in
   snd r = Fulfilled tt /\
   shows a (fst r) model (Viewer.cache a) (Viewer.loader_calls a) /\
   Viewer.statusEl_textContent (fst r) = ("Loaded: " ++ Viewer.label v)%string /\
   Viewer.grid_position_y (fst r) = vy (Box3_min (Box3_setFromObject model))).
Proof.
  intros Hhit. split; intros Hv; cbv zeta.
  - destruct (Index_variant name v Hv) as [Hcfg _].
    exact (setVariant_with_hit _ _ Index_finish_local name response a _ model
             Hcfg Hhit).
  - destruct (Part000_variant name v Hv) as [Hcfg _].
    destruct (setVariant_with_hit _ _ Part000_finish_local name response a _ model
                Hcfg Hhit) as [Hs Hshows].
    split; [exact Hs |]. split; [exact Hshows |].
    exact (Part000_setVariant_status name response a v model _ _ Hv Hshows).
Qed.

(** X17: for a variant of the table that is not in the cache,
    [setVariant] removes the current model, calls the loader once with the
    URL of the variant and waits.  When the loader answers with a model, the
    call resumes on the state the script is in at that moment, whatever has
    happened since: the model, as the loader gave it (no variant of the
    tables asks for a rescaling), becomes the current one, joins the
    children the scene has then, is put in the cache under the name and is
    framed; [part_000] also writes the status line and moves the grid.  When
    nothing happens in between, that state is the one the call left. *)
Theorem setVariant_loads_and_shows (name : string) (v : Viewer.Variant)
    (model : Object3D) (a b : Viewer.App) :
  Viewer.cache a !! name = None ->
  (Index.VARIANTS !! name = Some v ->
   let b' := Index.setVariant_resume (Viewer.cfg_own v) name model b in
   Index.setVariant_call name a =
     (waiting_state a (Viewer.url v), Viewer.awaiting (Viewer.cfg_own v)) /\
   shown_on b b' model name /\
   Index.setVariant name (Viewer.loader_loaded model) a =
     (Index.setVariant_resume (Viewer.cfg_own v) name model
        (waiting_state a (Viewer.url v)), Fulfilled tt)) /\
  (Part000.VARIANTS !! name = Some v ->
   let b' := Part000.setVariant_resume (Viewer.cfg_own v) name model b in
   Part000.setVariant_call name a =
     (waiting_state a (Viewer.url v), Viewer.awaiting (Viewer.cfg_own v)) /\
   shown_on b b' model name /\
   Viewer.statusEl_textContent b' = ("Loaded: " ++ Viewer.label v)%string /\
   Viewer.grid_position_y b' = vy (Box3_min (Box3_setFromObject model)) /\
   Part000.setVariant name (Viewer.loader_loaded model) a =
     (Part000.setVariant_resume (Viewer.cfg_own v) name model
        (waiting_state a (Viewer.url v)), Fulfilled tt)).
Proof.
  intros Hmiss. split; intros Hv; cbv zeta.
  - destruct (Index_variant name v Hv) as [Hcfg Hscale].
    pose proof (setVariant_call_miss Index.VARIANTS Index.finish name a v Hcfg Hmiss)
      as Hcall.
    split; [exact Hcall |].
    split; [exact (resume_shown_on Index.finish Index_finish_local _ name model b Hscale) |].
    unfold Index.setVariant, Viewer.setVariant_with.
    unfold Index.setVariant_call in Hcall. now rewrite Hcall.
  - destruct (Part000_variant name v Hv) as [Hcfg Hscale].
    pose proof (setVariant_call_miss Part000.VARIANTS Part000.finish name a v
                  Hcfg Hmiss) as Hcall.
    split; [exact Hcall |].
    split; [exact (resume_shown_on Part000.finish Part000_finish_local _ name model b
                     Hscale) |].
    split; [| split].
    + unfold Part000.setVariant_resume. rewrite (resume_is_show _ _ name model b Hscale).
      reflexivity.
    + unfold Part000.setVariant_resume. rewrite (resume_is_show _ _ name model b Hscale).
      reflexivity.
    + unfold Part000.setVariant, Viewer.setVariant_with.
      unfold Part000.setVariant_call in Hcall. now rewrite Hcall.
Qed.


(** X19: for a variant of the table that is not in the cache, when the
    loader fails or does not answer, [setVariant] has called the loader once
    with the URL of the variant and is rejected with the loader's value (or
    stays pending); the model that was shown has left the scene and there is
    no current model; the cache, the camera, the controller, the grid and
    the status line are what they were. *)
Theorem setVariant_without_model (name : string) (v : Viewer.Variant)
    (response : Viewer.LoaderOutcome) (a : Viewer.App) :
  Viewer.cache a !! name = None ->
  (forall model, response <> Viewer.loader_loaded model) ->
  let left_behind :=
    {| Viewer.scene_children := without_current a;
       Viewer.currentModel := None;
       Viewer.cache := Viewer.cache a;
       Viewer.loader_calls := Viewer.loader_calls a ++ [Some (Viewer.url v)];
       Viewer.camera := Viewer.camera a;
       Viewer.controls := Viewer.controls a;
       Viewer.grid_position_y := Viewer.grid_position_y a;
       Viewer.statusEl_textContent := Viewer.statusEl_textContent a |} in
  let settled :=
    match response with
    | Viewer.loader_failed e => Rejected (GLTFLoaderError e)
    | _ => Pending
    end in
  (Index.VARIANTS !! name = Some v ->
   Index.setVariant name response a = (left_behind, settled)) /\
  (Part000.VARIANTS !! name = Some v ->
   Part000.setVariant name response a = (left_behind, settled)).
Proof.
  intros Hmiss Hresp. cbv zeta. split; intros Hv.
  - destruct (Index_variant name v Hv) as [Hcfg _].
    exact (setVariant_with_unanswered _ _ name response a _ Hcfg Hmiss Hresp).
  - destruct (Part000_variant name v Hv) as [Hcfg _].
    exact (setVariant_with_unanswered _ _ name response a _ Hcfg Hmiss Hresp).
Qed.

(** X20: whatever the name and the loader's answer, [setVariant] of either
    script keeps the scene consistent (no object twice among the children,
    the current model among them), and no child leaves the scene except the
    model that was current. *)
Theorem setVariant_scene (name : string) (response : Viewer.LoaderOutcome)
    (a : Viewer.App) :
  let a1 := fst (Index.setVariant name response a) in
  let a2 := fst (Part000.setVariant name response a) in
  (scene_consistent a -> scene_consistent a1 /\ scene_consistent a2) /\
  (forall n, In n (scene_ids a) ->
             (forall cur, Viewer.currentModel a = Some cur -> id (data_of cur) <> n) ->
             In n (scene_ids a1) /\ In n (scene_ids a2)).
Proof.
  cbv zeta.
  destruct (setVariant_with_scene Index.VARIANTS _ Index_finish_local
              name response a) as [Hc1 Hk1].
  destruct (setVariant_with_scene Part000.VARIANTS _ Part000_finish_local
              name response a) as [Hc2 Hk2].
  split.
  - intros Hc. split; [exact (Hc1 Hc) | exact (Hc2 Hc)].
  - intros n Hin Hcur. split; [exact (Hk1 n Hin Hcur) | exact (Hk2 n Hin Hcur)].
Qed.


End SetVariantScripts.

(** ** The page of [part_000] *)

Section Page.
Context {three : Three}.
Import Part000Page.

Lemma run_invariant (P : Page -> Prop) :
  (forall p ev, P p -> P (handle p ev)) ->
  forall events p, P p -> P (run p events).
Proof.
  intros Hstep events. unfold run.
  induction events as [| ev events IH]; intros p Hp; [exact Hp |].
  cbn [fold_left]. apply IH, Hstep, Hp.
Qed.

Lemma run_app (p : Page) (events1 events2 : list PageEvent) :
  run p (events1 ++ events2) = run (run p events1) events2.
Proof. unfold run. apply fold_left_app. Qed.

Lemma xorb_toggle (b : bool) (n : nat) :
  xorb (negb b) (Nat.odd n) = xorb b (Nat.odd (S n)).
Proof.
  rewrite Nat.odd_succ, <- Nat.negb_odd.
  destruct b, (Nat.odd n); reflexivity.
Qed.

Lemma background_in_step_kept (p : Page) (ev : PageEvent) :
  background_in_step p -> background_in_step (handle p ev).
Proof.
  unfold background_in_step. intros H.
  destruct ev; cbn; try exact H.
  destruct (bgOn p); repeat split.
Qed.

Lemma grid_in_step_kept (p : Page) (ev : PageEvent) :
  grid_in_step p -> grid_in_step (handle p ev).
Proof.
  unfold grid_in_step. intros H. destruct ev; cbn; try exact H. reflexivity.
Qed.

(** X22: [bgOn] after a run of events is its value before, flipped once for
    every click on the background button and by nothing else; and from the
    first such click on, whatever follows, the gradient layer is visible
    exactly when [bgOn] holds, the scene background is [0x1a1a1a] when it
    holds and [0x111111] when not, the renderer's clear colour is the scene
    background, and the button's [aria-pressed] is [String(bgOn)]. *)
Theorem background_button (p : Page) :
  (forall events,
      bgOn (run p events) =
      xorb (bgOn p) (Nat.odd (clicks is_click_btnBg events))) /\
  (forall events1 events2,
      background_in_step (run p (events1 ++ click_btnBg :: events2))).
Proof.
  split.
  - intros events. revert p. unfold run, clicks.
    induction events as [| ev events IH]; intros p.
    + cbn. now destruct (bgOn p).
    + cbn [fold_left List.filter]. rewrite IH.
      destruct ev; cbn [is_click_btnBg handle]; try reflexivity.
      cbn [List.length]. apply xorb_toggle.
  - intros events1 events2.
    rewrite run_app. change (click_btnBg :: events2) with ([click_btnBg] ++ events2).
    rewrite run_app. apply run_invariant; [apply background_in_step_kept |].
    unfold run, background_in_step. cbn.
    destruct (bgOn (fold_left handle events1 p)); repeat split.
Qed.

(** X23: the grid is visible after a run of events exactly when it was
    before, flipped once for every click on the grid button and by nothing
    else (showing a variant moves the grid, it does not show or hide it);
    and from the first such click on, the button's [aria-pressed] is
    [String(grid.visible)]. *)
Theorem grid_button (p : Page) :
  (forall events,
      grid_visible (run p events) =
      xorb (grid_visible p) (Nat.odd (clicks is_click_btnGrid events))) /\
  (forall events1 events2,
      grid_in_step (run p (events1 ++ click_btnGrid :: events2))).
Proof.
  split.
  - intros events. revert p. unfold run, clicks.
    induction events as [| ev events IH]; intros p.
    + cbn. now destruct (grid_visible p).
    + cbn [fold_left List.filter]. rewrite IH.
      destruct ev; cbn [is_click_btnGrid handle]; try reflexivity.
      cbn [List.length]. apply xorb_toggle.
  - intros events1 events2.
    rewrite run_app. change (click_btnGrid :: events2) with ([click_btnGrid] ++ events2).
    rewrite run_app. apply run_invariant; [apply grid_in_step_kept |].
    reflexivity.
Qed.

Lemma leaves_view_step (p : Page) (ev : PageEvent) :
  leaves_view ev = true ->
  view_pose (app (handle p ev)) = view_pose (app p) /\
  fov (Viewer.camera (app (handle p ev))) = fov (Viewer.camera (app p)) /\
  Viewer.scene_children (app (handle p ev)) = Viewer.scene_children (app p) /\
  Viewer.currentModel (app (handle p ev)) = Viewer.currentModel (app p) /\
  Viewer.cache (app (handle p ev)) = Viewer.cache (app p) /\
  Viewer.loader_calls (app (handle p ev)) = Viewer.loader_calls (app p).
Proof.
  destruct ev; try discriminate; intros _; cbn; try (repeat split; reflexivity).
  destruct (updateProjectionMatrix_writes
              (set_aspect (Viewer.camera (app p)) (w / h)))
    as (Hp & Hf & Hn & Hr).
  unfold view_pose, pose_of. cbn. rewrite Hp, Hf, Hn, Hr. repeat split.
Qed.

(** X24: the handlers of the three toggle buttons and of the resize of the
    window never move the view: after any run of such events the camera
    position, the clip planes, the target and the field of view are what they
    were, and so are the children of the scene, the current model, the cache
    and the loader calls. *)
Theorem toggles_and_resize_leave_view (p : Page) (events : list PageEvent) :
  forallb leaves_view events = true ->
  let q := run p events in
  view_pose (app q) = view_pose (app p) /\
  fov (Viewer.camera (app q)) = fov (Viewer.camera (app p)) /\
  Viewer.scene_children (app q) = Viewer.scene_children (app p) /\
  Viewer.currentModel (app q) = Viewer.currentModel (app p) /\
  Viewer.cache (app q) = Viewer.cache (app p) /\
  Viewer.loader_calls (app q) = Viewer.loader_calls (app p).
Proof.
  cbv zeta. revert p. unfold run.
  induction events as [| ev events IH]; intros p Hall.
  - repeat split.
  - cbn [forallb] in Hall. apply andb_true_iff in Hall as [Hev Hall].
    cbn [fold_left].
    destruct (IH (handle p ev) Hall) as (H1 & H2 & H3 & H4 & H5 & H6).
    destruct (leaves_view_step p ev Hev) as (G1 & G2 & G3 & G4 & G5 & G6).
    rewrite H1, H2, H3, H4, H5, H6. repeat split; assumption.
Qed.

End Page.

(** ** Closed examples of the further properties *)

Lemma load_cancelled_before_callbacks_witness :
  aborted live_signal = false /\
  ModelManager.result
    (ModelManager.load (three := cube_three) "model.glb" (Some live_signal)
       (Some "sky.hdr") [abort; onLoad sample_gltf] (rgbe_loaded 7)) =
  Rejected AbortError.
Proof.
  split; [reflexivity |].
  apply (load_cancelled_before_callbacks (three := cube_three) "model.glb"
           live_signal (Some "sky.hdr") [onLoad sample_gltf] (rgbe_loaded 7)).
  reflexivity.
Defined.

Lemma load_ignores_aborted_signal_witness :
  aborted dead_signal = true /\
  ModelManager.load (three := cube_three) "model.glb" (Some dead_signal) None
    [abort; onLoad sample_gltf; abort] rgbe_silent =
  ModelManager.load (three := cube_three) "model.glb" None None
    [onLoad sample_gltf] rgbe_silent.
Proof.
  split; [reflexivity |].
  apply (load_ignores_aborted_signal (three := cube_three) "model.glb" dead_signal
           None [abort; onLoad sample_gltf; abort] rgbe_silent).
  reflexivity.
Defined.

Lemma load_without_scene_witness :
  gltf_scene sceneless_gltf = None /\
  ModelManager.result
    (ModelManager.load (three := cube_three) "model.glb" None (Some "sky.hdr")
       [onLoad sceneless_gltf] (rgbe_loaded 7)) = Rejected TypeError.
Proof.
  split; [reflexivity |].
  rewrite (load_without_scene (three := cube_three) "model.glb" None (Some "sky.hdr")
             sceneless_gltf [] (rgbe_loaded 7) eq_refl (or_intror eq_refl)).
  reflexivity.
Defined.

Lemma load_without_environment_witness :
  truthy_string (Some "") = false /\
  ModelManager.disposed
    (ModelManager.load (three := cube_three) "model.glb" None (Some "")
       [onLoad sample_gltf] (rgbe_failed "404")) = [] /\
  exists asset,
    ModelManager.result
      (ModelManager.load (three := cube_three) "model.glb" None (Some "")
         [onLoad sample_gltf] (rgbe_failed "404")) = Fulfilled asset.
Proof.
  destruct (load_without_environment (three := cube_three) "model.glb" None
              (Some "") sample_gltf (group 1 [mesh 2; group 3 [mesh 4]]) []
              (rgbe_failed "404") eq_refl eq_refl) as (Hr & _ & Hd).
  split; [reflexivity |]. split; [exact Hd |]. eexists. exact Hr.
Defined.

Lemma load_applies_environment_witness :
  truthy_string (Some "sky.hdr") = true /\
  exists asset,
    ModelManager.result
      (ModelManager.load (three := cube_three) "model.glb" None (Some "sky.hdr")
         [onLoad sample_gltf] (rgbe_loaded 7)) = Fulfilled asset /\
    envMap_slots (ModelManager.root asset) =
      [None; Some (Some (env_texture 8)); None; Some (Some (env_texture 8))].
Proof.
  destruct (load_applies_environment (three := cube_three) "model.glb" None
              (Some "sky.hdr") sample_gltf (group 1 [mesh 2; group 3 [mesh 4]]) []
              7%nat eq_refl eq_refl) as (asset & Hr & _ & He & _).
  split; [reflexivity |]. exists asset. split; [exact Hr | exact He].
Defined.

Lemma load_keeps_tree_witness :
  exists asset,
    ModelManager.result
      (ModelManager.load (three := cube_three) "model.glb" None (Some "sky.hdr")
         [onLoad sample_gltf] (rgbe_loaded 7)) = Fulfilled asset /\
    Forall2 kept_by_load (nodes (group 1 [mesh 2; group 3 [mesh 4]]))
      (nodes (ModelManager.root asset)).
Proof.
  eexists. split; [reflexivity |].
  apply (load_keeps_tree (three := cube_three) "model.glb" None (Some "sky.hdr")
           [onLoad sample_gltf] (rgbe_loaded 7) sample_gltf
           (group 1 [mesh 2; group 3 [mesh 4]]));
    reflexivity.
Defined.

Lemma load_again_same_root_witness :
  let first := ModelManager.load (three := cube_three) "model.glb" None
                 (Some "sky.hdr") [onLoad sample_gltf] (rgbe_loaded 7) in
  let again (root1 : Object3D) (envMapHDR' : option string) :=
    ModelManager.load (three := cube_three) "again.glb" None envMapHDR'
      [onLoad {| gltf_scene := Some root1; gltf_scenes := None;
                 gltf_animations := None |}] (rgbe_loaded 9) in
  exists asset,
    ModelManager.result first = Fulfilled asset /\
    (forall asset',
       ModelManager.result (again (ModelManager.root asset) (Some "dusk.hdr")) =
         Fulfilled asset' ->
       Forall2 same_but_envMap (nodes (ModelManager.root asset))
         (nodes (ModelManager.root asset'))) /\
    (exists asset',
       ModelManager.result (again (ModelManager.root asset) None) =
         Fulfilled asset' /\
       ModelManager.root asset' = ModelManager.root asset) /\
    (exists asset',
       ModelManager.result (again (ModelManager.root asset) (Some "dusk.hdr")) =
         Fulfilled asset' /\
       envMap_slots (ModelManager.root asset') <>
       envMap_slots (ModelManager.root asset)).
Proof.
  cbv zeta. eexists. split; [reflexivity |].
  destruct (load_again_same_root (three := cube_three) "model.glb" None
              (Some "sky.hdr") [onLoad sample_gltf] (rgbe_loaded 7) _
              "again.glb" None (Some "dusk.hdr")
              {| gltf_scene := Some _; gltf_scenes := None;
                 gltf_animations := None |} [] (rgbe_loaded 9)
              eq_refl eq_refl) as (Hsame & _ & Henv).
  destruct (load_again_same_root (three := cube_three) "model.glb" None
              (Some "sky.hdr") [onLoad sample_gltf] (rgbe_loaded 7) _
              "again.glb" None None
              {| gltf_scene := Some _; gltf_scenes := None;
                 gltf_animations := None |} [] (rgbe_loaded 9)
              eq_refl eq_refl) as (_ & Hnone & _).
  split; [exact Hsame |]. split; [exact (Hnone eq_refl) |].
  destruct (Henv 9%nat eq_refl eq_refl) as (asset' & Hr & Hslots & _).
  exists asset'. split; [exact Hr |]. rewrite Hslots. discriminate.
Defined.



Lemma frameObject_positive_distance_witness :
  let s := ModelManager.frameObject (three := cube_three) (mesh 1)
             sample_camera sample_controls 1.25 in
  0 < near (fst s) /\ near (fst s) < far (fst s) /\
  far (fst s) = 10000 * near (fst s).
Proof.
  cbv zeta.
  assert (Hsz : 0 < vx (Box3_getSize (Three := cube_three)
                          (Box3_setFromObject (Three := cube_three) (mesh 1))) \/
                0 < vy (Box3_getSize (Three := cube_three)
                          (Box3_setFromObject (Three := cube_three) (mesh 1))) \/
                0 < vz (Box3_getSize (Three := cube_three)
                          (Box3_setFromObject (Three := cube_three) (mesh 1))))
    by (left; cbn; lra).
  assert (Hp : 0 < 1.25) by lra.
  assert (Hlo : 0 < fov sample_camera) by (cbn; lra).
  assert (Hhi : fov sample_camera < 180) by (cbn; lra).
  destruct (frameObject_positive_distance (three := cube_three) (mesh 1)
              sample_camera sample_controls 1.25 Hsz Hp Hlo Hhi)
    as (_ & H1 & H2 & H3).
  repeat split; assumption.
Defined.

Lemma frameDist_decreasing_in_fov_witness :
  frameDist 2 (deg2rad 90) 1.25 < frameDist 2 (deg2rad 60) 1.25.
Proof.
  apply frameDist_decreasing_in_fov; lra.
Defined.

Lemma Viewer_frameObject_framing_witness :
  let s := Viewer.frameObject (three := cube_three) (mesh 1) sample_camera
             sample_controls in
  0 < fov sample_camera /\ fov sample_camera < 180 /\
  distance_between (position (fst s)) (target (snd s)) =
    (Vector3Methods.length
       (Box3_getSize (Three := cube_three)
          (Box3_setFromObject (Three := cube_three) (mesh 1))) /
     (2 * tan (deg2rad (fov sample_camera) / 2))) * 1.3.
Proof.
  cbv zeta.
  assert (Hlo : 0 < fov sample_camera) by (cbn; lra).
  assert (Hhi : fov sample_camera < 180) by (cbn; lra).
  destruct (Viewer_frameObject_framing (three := cube_three) (mesh 1)
              sample_camera sample_controls Hlo Hhi) as (Hd & _).
  split; [exact Hlo |]. split; [exact Hhi | exact Hd].
Defined.

Lemma Viewer_frameObject_not_closer_witness :
  let m := ModelManager.frameObject (three := cube_three) (mesh 1) sample_camera
             sample_controls ModelManager.default_padding in
  let v := Viewer.frameObject (three := cube_three) (mesh 1) sample_camera
             sample_controls in
  distance_between (position (fst m)) (target (snd m)) <=
  distance_between (position (fst v)) (target (snd v)).
Proof.
  apply (Viewer_frameObject_not_closer (three := cube_three)); cbn; lra.
Defined.

Lemma plus1pm_in_tables :
  Index.VARIANTS !! "plus1pm"%string = Some plus1pm /\
  Part000.VARIANTS !! "plus1pm"%string = Some plus1pm.
Proof. split; vm_compute; reflexivity. Qed.

Lemma cached_app_hit : Viewer.cache cached_app !! "plus1pm"%string = Some (mesh 11).
Proof. apply lookup_singleton_eq. Qed.

Lemma sample_app_miss : Viewer.cache sample_app !! "plus1pm"%string = None.
Proof. apply lookup_empty. Qed.


Lemma setVariant_from_cache_witness :
  let r := Part000.setVariant (three := cube_three) "plus1pm"
             (Viewer.loader_failed "offline") cached_app in
  Viewer.cache cached_app !! "plus1pm"%string = Some (mesh 11) /\
  snd r = Fulfilled tt /\
  Viewer.loader_calls (fst r) = Viewer.loader_calls cached_app /\
  Viewer.currentModel (fst r) = Some (mesh 11).
Proof.
  cbv zeta.
  destruct (setVariant_from_cache (three := cube_three) "plus1pm" plus1pm (mesh 11)
              (Viewer.loader_failed "offline") cached_app cached_app_hit)
    as [_ H].
  destruct (H (proj2 plus1pm_in_tables)) as (Hs & (Hcur & _ & _ & Hcalls & _) & _).
  split; [exact cached_app_hit |]. split; [exact Hs |].
  split; [exact Hcalls | exact Hcur].
Defined.

Lemma plus2pm_in_tables :
  Index.VARIANTS !! "plus2pm"%string = Some plus2pm /\
  Part000.VARIANTS !! "plus2pm"%string = Some plus2pm.
Proof. split; vm_compute; reflexivity. Qed.

(** Two calls before the first answer: the first model stays in the scene
    when the second is shown. *)
Lemma two_calls_first_answer :
  let a1 := fst (Index.setVariant_call (three := orbit_three) "plus1pm" sample_app) in
  let a2 := fst (Index.setVariant_call (three := orbit_three) "plus2pm" a1) in
  let b1 := Index.setVariant_resume (three := orbit_three) (Viewer.cfg_own plus1pm)
              "plus1pm" (mesh 30) a2 in
  Viewer.cache a1 !! "plus2pm"%string = None /\
  Viewer.scene_children b1 = [group 10 []; mesh 30].
Proof.
  cbv zeta. split; [reflexivity |].
  unfold Index.setVariant_resume.
  rewrite (resume_is_show (three := orbit_three) Index.finish _ "plus1pm" (mesh 30) _
             (needs_scaling_1 plus1pm eq_refl)).
  reflexivity.
Qed.

Lemma setVariant_loads_and_shows_witness :
  let a1 := fst (Index.setVariant_call (three := orbit_three) "plus1pm" sample_app) in
  let a2 := fst (Index.setVariant_call (three := orbit_three) "plus2pm" a1) in
  let b1 := Index.setVariant_resume (three := orbit_three) (Viewer.cfg_own plus1pm)
              "plus1pm" (mesh 30) a2 in
  let b2 := Index.setVariant_resume (three := orbit_three) (Viewer.cfg_own plus2pm)
              "plus2pm" (mesh 31) b1 in
  Viewer.cache a1 !! "plus2pm"%string = None /\
  Index.setVariant_call (three := orbit_three) "plus2pm" a1 =
    (waiting_state a1 "./assets/shelly.glb", Viewer.awaiting (Viewer.cfg_own plus2pm)) /\
  Viewer.currentModel b2 = Some (mesh 31) /\
  Viewer.scene_children b2 = [group 10 []; mesh 30; mesh 31].
Proof.
  cbv zeta. destruct two_calls_first_answer as [Hmiss Hb1]. cbv zeta in Hmiss, Hb1.
  destruct (setVariant_loads_and_shows (three := orbit_three) "plus2pm" plus2pm
              (mesh 31)
              (fst (Index.setVariant_call (three := orbit_three) "plus1pm" sample_app))
              (Index.setVariant_resume (three := orbit_three) (Viewer.cfg_own plus1pm)
                 "plus1pm" (mesh 30)
                 (fst (Index.setVariant_call (three := orbit_three) "plus2pm"
                         (fst (Index.setVariant_call (three := orbit_three) "plus1pm"
                                 sample_app)))))
              Hmiss) as [H _].
  destruct (H (proj1 plus2pm_in_tables)) as (Hcall & (Hcur & Hch & _) & _).
  split; [exact Hmiss |]. split; [exact Hcall |]. split; [exact Hcur |].
  rewrite Hch, Hb1. reflexivity.
Defined.




Lemma setVariant_without_model_witness :
  Viewer.cache sample_app !! "plus1pm"%string = None /\
  Index.setVariant (three := cube_three) "plus1pm" (Viewer.loader_failed "offline")
    sample_app =
  ({| Viewer.scene_children := [group 10 []];
      Viewer.currentModel := None;
      Viewer.cache := ∅;
      Viewer.loader_calls := [Some "./assets/shelly2.glb"%string];
      Viewer.camera := sample_camera;
      Viewer.controls := sample_controls;
      Viewer.grid_position_y := 0;
      Viewer.statusEl_textContent := "" |},
   Rejected (GLTFLoaderError "offline")).
Proof.
  split; [exact sample_app_miss |].
  destruct (setVariant_without_model (three := cube_three) "plus1pm" plus1pm
              (Viewer.loader_failed "offline") sample_app sample_app_miss)
    as [H _]; [discriminate |].
  rewrite (H (proj1 plus1pm_in_tables)). reflexivity.
Defined.

Lemma toggles_and_resize_leave_view_witness :
  let events := [Part000Page.click_btnAuto; Part000Page.window_resize 1024 768;
                 Part000Page.click_btnBg; Part000Page.click_btnGrid] in
  forallb leaves_view events = true /\
  view_pose (Part000Page.app (Part000Page.run (three := cube_three) sample_page events)) =
  view_pose (Part000Page.app sample_page).
Proof.
  cbv zeta. split; [reflexivity |].
  apply (toggles_and_resize_leave_view (three := cube_three)). reflexivity.
Defined.
